(** * Grid editor and stream renderer of the restaurant admin dashboard

    A shallow embedding of the client-side editing state machine
    (components/admin/editable-table.tsx with the AdminDashboard handlers),
    of the PATCH routes of the two tables, and of the chat form's message
    log, with the properties the specification states about
    them. *)

From stdpp Require Import gmap strings list fin_maps.
From Stdlib Require Import NArith Ascii.

Local Open Scope N_scope.

(** ** JavaScript strings

    A JavaScript string is a sequence of UTF-16 code units. *)
Module Js.

Abbreviation jsstring := (list N).

(** An ASCII literal of the source as code units. *)
Definition lit (s : string) : jsstring :=
  map N_of_ascii (String.list_ascii_of_string s).

(** ECMAScript WhiteSpace and LineTerminator code units, the ones
    [String.prototype.trim] strips. *)
Definition isWhiteSpace (c : N) : bool :=
  (c =? 0x09) || (c =? 0x0A) || (c =? 0x0B) || (c =? 0x0C) || (c =? 0x0D)
  || (c =? 0x20) || (c =? 0xA0) || (c =? 0x1680)
  || ((0x2000 <=? c) && (c <=? 0x200A))
  || (c =? 0x2028) || (c =? 0x2029) || (c =? 0x202F) || (c =? 0x205F)
  || (c =? 0x3000) || (c =? 0xFEFF).

Fixpoint trimStart (s : jsstring) : jsstring :=
  match s with
  | [] => []
  | c :: rest => if isWhiteSpace c then trimStart rest else s
  end.

Definition trimEnd (s : jsstring) : jsstring := rev (trimStart (rev s)).

(** [s.trim()] *)
Definition trim (s : jsstring) : jsstring := trimEnd (trimStart s).

(** Truthiness of a string: only the empty string is falsy. *)
Definition truthy (s : jsstring) : bool :=
  match s with [] => false | _ => true end.

(** [v || ""] for a possibly undefined string [v]. *)
Definition orEmpty (v : option jsstring) : jsstring := default [] v.

(** Surrogate code units: a high one followed by a low one encodes a single
    character outside the basic plane. *)
Definition isHighSurrogate (c : N) : bool := (0xD800 <=? c) && (c <=? 0xDBFF).
Definition isLowSurrogate (c : N) : bool := (0xDC00 <=? c) && (c <=? 0xDFFF).

(** The characters of a string, as the string iterator yields them: a
    surrogate pair is one character, every other code unit is one. *)
Fixpoint chars (s : jsstring) : list jsstring :=
  match s with
  | [] => []
  | c :: rest =>
      match rest with
      | d :: rest' =>
          if isHighSurrogate c && isLowSurrogate d
          then [c; d] :: chars rest'
          else [c] :: chars rest
      | [] => [[c]]
      end
  end.

(** Length of a string in display characters. *)
Definition displayLength (s : jsstring) : nat := length (chars s).

End Js.

(** ** Stream renderer *)
Module Stream.
Import Js.

(** Accumulate the characters one at a time, yielding the text revealed so
    far after each. *)
Fixpoint reveal_from (acc : jsstring) (cs : list jsstring) : list jsstring :=
  match cs with
  | [] => []
  | ch :: rest => (acc ++ ch) :: reveal_from (acc ++ ch) rest
  end.

(** Modelled from the spec: lib/stream-text.ts, which defines
    streamTextByChar, is imported by the chat form but is not among the
    sources. The specification gives its contract: the lazy sequence of the
    prefixes of [text], each one displayable character longer than the one
    before, a multi-unit character never split, ending with the full text and
    empty for the empty text. The delay paces the sequence and does not
    change its elements. *)
Definition streamTextByChar (text : jsstring) (delay : N) : list jsstring :=
  reveal_from [] (chars text).

End Stream.

(** ** Display characters, read off the encoding

    What the specification asks of the renderer, "one displayable character
    at a time, a multi-unit character never split mid-encoding", said on the
    code units alone and without the splitter [Js.chars]: in UTF-16 the one
    multi-unit character is a high surrogate directly followed by a low
    one. *)
Module Encoding.
Import Js.

(** Cutting [text] after [n] code units cuts a surrogate pair in two. *)
Definition splitsPair (text : jsstring) (n : nat) : bool :=
  match n with
  | O => false
  | S m =>
      match text !! m, text !! n with
      | Some c, Some d => isHighSurrogate c && isLowSurrogate d
      | _, _ => false
      end
  end.

(** The code units of [s] that are not the second half of a pair, [prev]
    being the code unit before [s]. *)
Fixpoint countFrom (prev : option N) (s : jsstring) : nat :=
  match s with
  | [] => 0
  | c :: rest =>
      (if match prev with
          | Some b => isHighSurrogate b && isLowSurrogate c
          | None => false
          end
       then 0 else 1)%nat
      + countFrom (Some c) rest
  end.

(** The number of display characters of a string: every code unit counts
    but the second half of a pair. *)
Definition displayCount (s : jsstring) : nat := countFrom None s.

(** One display character: one code unit, or a high surrogate and a low
    one. *)
Definition isCharacter (ch : jsstring) : bool :=
  match ch with
  | [_] => true
  | [c; d] => isHighSurrogate c && isLowSurrogate d
  | _ => false
  end.

End Encoding.

(** ** Grid editor

    The EditableTable component together with the AdminDashboard handlers it
    is given as [onAdd], [onUpdate] and [onDelete]. The handlers of the two
    tables (menu items, restaurant details) are the same code over two state
    variables; the names of the menu-item ones are kept. *)
Module Grid.
Import Js.

(** A row: the identifier the store assigned (a UUID, create-tables.sql) and
    the string fields, read as [item[column.key]]. *)
Record Item := mkItem {
  item_id : jsstring;
  fields : gmap jsstring jsstring
}.

#[export] Instance Item_eq_dec : EqDecision Item.
Proof. solve_decision. Defined.

Inductive ColumnType := text | textarea.

Record Column := mkColumn {
  key : jsstring;
  label : jsstring;
  type : ColumnType;
  placeholder : option jsstring
}.

(** What the component takes from outside and never changes itself: the
    column schema and the language of the notices. *)
Record Props := mkProps {
  columns : list Column;
  isEnglish : bool
}.

Inductive Variant := default_variant | destructive.

Record Toast := mkToast {
  title : jsstring;
  description : jsstring;
  variant : option Variant
}.

(** A fetch that has been issued and not answered yet, with the variables
    its continuation closes over. *)
Inductive Request :=
| PATCH_item (id field value : jsstring)
| POST_item (item : gmap jsstring jsstring)
| DELETE_item (id : jsstring).

(** How an awaited fetch settles, as far as the handlers look at it: a
    response with [ok] set and its JSON body, a response with [ok] unset, or
    a rejected promise (the request never got an answer; the handler then
    throws fetch's own TypeError). *)
Inductive FetchResult (A : Type) :=
| Ok (json : A)
| NotOk (status : N)
| Rejected.
Arguments Ok {A} json.
Arguments NotOk {A} status.
Arguments Rejected {A}.

(** How an async handler ends. *)
Inductive Settled :=
| Resolved
| Threw (message : jsstring).

Record State := mkState {
  data : list Item;                        (* menuItems, passed as [data] *)
  editingCells : gset jsstring;
  cellValues : gmap jsstring jsstring;
  newRow : gmap jsstring jsstring;
  isAddingRow : bool;
  loadingCells : gset jsstring;
  toasts : list Toast;                     (* notices shown, oldest first *)
  requests : list Request;                 (* fetches in flight *)
  unhandledRejections : list jsstring      (* errors no handler caught *)
}.

Definition setEditingCells (f : gset jsstring → gset jsstring) (s : State) : State :=
  mkState (data s) (f (editingCells s)) (cellValues s) (newRow s)
    (isAddingRow s) (loadingCells s) (toasts s) (requests s)
    (unhandledRejections s).

Definition setCellValues (f : gmap jsstring jsstring → gmap jsstring jsstring)
    (s : State) : State :=
  mkState (data s) (editingCells s) (f (cellValues s)) (newRow s)
    (isAddingRow s) (loadingCells s) (toasts s) (requests s)
    (unhandledRejections s).

Definition setNewRow (f : gmap jsstring jsstring → gmap jsstring jsstring)
    (s : State) : State :=
  mkState (data s) (editingCells s) (cellValues s) (f (newRow s))
    (isAddingRow s) (loadingCells s) (toasts s) (requests s)
    (unhandledRejections s).

Definition setIsAddingRow (b : bool) (s : State) : State :=
  mkState (data s) (editingCells s) (cellValues s) (newRow s)
    b (loadingCells s) (toasts s) (requests s) (unhandledRejections s).

Definition setLoadingCells (f : gset jsstring → gset jsstring) (s : State) : State :=
  mkState (data s) (editingCells s) (cellValues s) (newRow s)
    (isAddingRow s) (f (loadingCells s)) (toasts s) (requests s)
    (unhandledRejections s).

Definition toast (t : Toast) (s : State) : State :=
  mkState (data s) (editingCells s) (cellValues s) (newRow s)
    (isAddingRow s) (loadingCells s) (toasts s ++ [t]) (requests s)
    (unhandledRejections s).

Definition fetch (r : Request) (s : State) : State :=
  mkState (data s) (editingCells s) (cellValues s) (newRow s)
    (isAddingRow s) (loadingCells s) (toasts s) (requests s ++ [r])
    (unhandledRejections s).

Definition answered (n : nat) (s : State) : State :=
  mkState (data s) (editingCells s) (cellValues s) (newRow s)
    (isAddingRow s) (loadingCells s) (toasts s) (delete n (requests s))
    (unhandledRejections s).

Definition unhandled (message : jsstring) (s : State) : State :=
  mkState (data s) (editingCells s) (cellValues s) (newRow s)
    (isAddingRow s) (loadingCells s) (toasts s) (requests s)
    (unhandledRejections s ++ [message]).

Definition getCellKey (id field : jsstring) : jsstring :=
  id ++ lit "-" ++ field.

(** The object built by the effect "Initialize cell values when data
    changes": a later assignment to the same key overwrites an earlier one. *)
Definition initialValues (p : Props) (d : list Item) : gmap jsstring jsstring :=
  foldl (λ acc item,
    foldl (λ acc column,
      <[getCellKey (item_id item) (key column) :=
          orEmpty (fields item !! key column)]> acc) acc (columns p)) ∅ d.

Definition useEffect_data (p : Props) (s : State) : State :=
  setCellValues (λ _, initialValues p (data s)) s.

(** [setMenuItems]: the new list reaches the table as its [data], and the
    effect above runs on the render that follows. *)
Definition setMenuItems (p : Props) (f : list Item → list Item) (s : State) : State :=
  useEffect_data p
    (mkState (f (data s)) (editingCells s) (cellValues s) (newRow s)
       (isAddingRow s) (loadingCells s) (toasts s) (requests s)
       (unhandledRejections s)).

Definition startEditing (id field : jsstring) (s : State) : State :=
  setEditingCells (λ prev, prev ∪ {[getCellKey id field]}) s.

Definition stopEditing (id field : jsstring) (s : State) : State :=
  setEditingCells (λ prev, prev ∖ {[getCellKey id field]}) s.

Definition handleCellChange (id field value : jsstring) (s : State) : State :=
  setCellValues (λ prev, <[getCellKey id field := value]> prev) s.

Definition msg (p : Props) (en : string) (zh : jsstring) : jsstring :=
  if isEnglish p then lit en else zh.

Definition errorTitle (p : Props) : jsstring := msg p "Error" [0x932F; 0x8AA4].
Definition successTitle (p : Props) : jsstring := msg p "Success" [0x6210; 0x529F].

Definition toast_fieldEmpty (p : Props) : Toast :=
  mkToast (errorTitle p)
    (msg p "Field cannot be empty" [0x6B04; 0x4F4D; 0x4E0D; 0x80FD; 0x70BA; 0x7A7A])
    (Some destructive).
Definition toast_updated (p : Props) : Toast :=
  mkToast (successTitle p)
    (msg p "Updated successfully" [0x66F4; 0x65B0; 0x6210; 0x529F]) None.
Definition toast_updateFailed (p : Props) : Toast :=
  mkToast (errorTitle p)
    (msg p "Failed to update" [0x66F4; 0x65B0; 0x5931; 0x6557]) (Some destructive).
Definition toast_fillAll (p : Props) : Toast :=
  mkToast (errorTitle p)
    (msg p "Please fill all fields"
       [0x8ACB; 0x586B; 0x5BEB; 0x6240; 0x6709; 0x6B04; 0x4F4D])
    (Some destructive).
Definition toast_added (p : Props) : Toast :=
  mkToast (successTitle p)
    (msg p "Added successfully" [0x65B0; 0x589E; 0x6210; 0x529F]) None.
Definition toast_addFailed (p : Props) : Toast :=
  mkToast (errorTitle p)
    (msg p "Failed to add" [0x65B0; 0x589E; 0x5931; 0x6557]) (Some destructive).

(** *** AdminDashboard handlers *)

(** [updateMenuItem] up to its [await fetch]. *)
Definition updateMenuItem (id field value : jsstring) (s : State) : State :=
  fetch (PATCH_item id field value) s.

(** [updateMenuItem] from the answer on. *)
Definition updateMenuItem_resume (p : Props) (id : jsstring)
    (response : FetchResult Item) (s : State) : State * Settled :=
  match response with
  | Ok updatedItem =>
      (setMenuItems p
         (λ prev, map (λ item,
            if bool_decide (item_id item = id) then updatedItem else item) prev) s,
       Resolved)
  | NotOk _ => (s, Threw (lit "Failed to update menu item"))
  | Rejected => (s, Threw (lit "Failed to fetch"))
  end.

Definition addMenuItem (item : gmap jsstring jsstring) (s : State) : State :=
  fetch (POST_item item) s.

Definition addMenuItem_resume (p : Props) (response : FetchResult Item)
    (s : State) : State * Settled :=
  match response with
  | Ok newItem => (setMenuItems p (λ prev, newItem :: prev) s, Resolved)
  | NotOk _ => (s, Threw (lit "Failed to add menu item"))
  | Rejected => (s, Threw (lit "Failed to fetch"))
  end.

Definition deleteMenuItem (id : jsstring) (s : State) : State :=
  fetch (DELETE_item id) s.

Definition deleteMenuItem_resume (p : Props) (id : jsstring)
    (response : FetchResult unit) (s : State) : State * Settled :=
  match response with
  | Ok _ =>
      (setMenuItems p (λ prev, filter (λ item, item_id item ≠ id) prev) s,
       Resolved)
  | NotOk _ => (s, Threw (lit "Failed to delete menu item"))
  | Rejected => (s, Threw (lit "Failed to fetch"))
  end.

(** *** EditableTable handlers *)

(** [saveCellValue] up to [await onUpdate(...)]: the validation, and for a
    value that passes it the loading mark and the request. *)
Definition saveCellValue (p : Props) (id field : jsstring) (s : State) : State :=
  let cellKey := getCellKey id field in
  let value := orEmpty (cellValues s !! cellKey) in
  if negb (truthy (trim value)) then toast (toast_fieldEmpty p) s
  else
    updateMenuItem id field (trim value)
      (setLoadingCells (λ prev, prev ∪ {[cellKey]}) s).

(** [saveCellValue] from the answer on: the rest of [onUpdate], then the
    [try] body or the [catch], then the [finally]. *)
Definition saveCellValue_resume (p : Props) (id field : jsstring)
    (response : FetchResult Item) (s : State) : State :=
  let cellKey := getCellKey id field in
  let s' :=
    match updateMenuItem_resume p id response s with
    | (s1, Resolved) => toast (toast_updated p) (stopEditing id field s1)
    | (s1, Threw _) => toast (toast_updateFailed p) s1
    end in
  setLoadingCells (λ prev, prev ∖ {[cellKey]}) s'.

Definition findItem (id : jsstring) (d : list Item) : option Item :=
  List.find (λ item, bool_decide (item_id item = id)) d.

Definition cancelEdit (id field : jsstring) (s : State) : State :=
  let cellKey := getCellKey id field in
  let s1 :=
    match findItem id (data s) with
    | Some originalItem =>
        setCellValues (λ prev,
          <[cellKey := orEmpty (fields originalItem !! field)]> prev) s
    | None => s
    end in
  stopEditing id field s1.

Definition handleKeyDown (p : Props) (k : jsstring) (shiftKey : bool)
    (id field : jsstring) (s : State) : State :=
  if bool_decide (k = lit "Enter") && negb shiftKey then saveCellValue p id field s
  else if bool_decide (k = lit "Escape") then cancelEdit id field s
  else s.

Definition handleNewRowChange (field value : jsstring) (s : State) : State :=
  setNewRow (λ prev, <[field := value]> prev) s.

(** [columns.filter((col) => !newRow[col.key]?.trim())] *)
Definition missingFields (p : Props) (s : State) : list Column :=
  List.filter (λ col, negb (truthy (trim (orEmpty (newRow s !! key col)))))
    (columns p).

(** [addNewRow] up to [await onAdd(newRow)]. *)
Definition addNewRow (p : Props) (s : State) : State :=
  if (0 <? length (missingFields p s))%nat then toast (toast_fillAll p) s
  else addMenuItem (newRow s) s.

(** [addNewRow] from the answer on. *)
Definition addNewRow_resume (p : Props) (response : FetchResult Item)
    (s : State) : State :=
  match addMenuItem_resume p response s with
  | (s1, Resolved) =>
      toast (toast_added p) (setIsAddingRow false (setNewRow (λ _, ∅) s1))
  | (s1, Threw _) => toast (toast_addFailed p) s1
  end.

Definition cancelNewRow (s : State) : State :=
  setIsAddingRow false (setNewRow (λ _, ∅) s).

(** The delete button: [onClick={() => onDelete(item.id)}]. The promise is
    dropped, so an error thrown by [onDelete] is caught by nobody. *)
Definition onDelete_click (id : jsstring) (s : State) : State :=
  deleteMenuItem id s.

Definition onDelete_resume (p : Props) (id : jsstring)
    (response : FetchResult unit) (s : State) : State :=
  match deleteMenuItem_resume p id response s with
  | (s1, Resolved) => s1
  | (s1, Threw message) => unhandled message s1
  end.

(** *** What the rendered table lets the user do *)

Definition hasRow (id : jsstring) (s : State) : bool :=
  existsb (λ item, bool_decide (item_id item = id)) (data s).

Definition hasColumn (p : Props) (field : jsstring) : bool :=
  existsb (λ column, bool_decide (key column = field)) (columns p).

Definition isEditing (s : State) (id field : jsstring) : bool :=
  bool_decide (getCellKey id field ∈ editingCells s).

Definition isLoading (s : State) (id field : jsstring) : bool :=
  bool_decide (getCellKey id field ∈ loadingCells s).

(** [renderCell] shows the input with its save and cancel buttons for a cell
    that is being edited, all three [disabled] while the cell is loading. *)
Definition controlsEnabled (p : Props) (s : State) (id field : jsstring) : bool :=
  hasRow id s && hasColumn p field && isEditing s id field
  && negb (isLoading s id field).

(** A cell that is not being edited is shown as text that starts the edit
    when clicked. *)
Definition cellClickable (p : Props) (s : State) (id field : jsstring) : bool :=
  hasRow id s && hasColumn p field && negb (isEditing s id field).

Inductive Event :=
| ClickCell (id field : jsstring)
| InputChange (id field value : jsstring)
| InputKeyDown (id field k : jsstring) (shiftKey : bool)
| ClickSave (id field : jsstring)
| ClickCancel (id field : jsstring)
| ClickAdd
| NewRowChange (field value : jsstring)
| ClickConfirmAdd
| ClickCancelAdd
| ClickDelete (id : jsstring)
| Answer (n : nat) (response : FetchResult Item)
| AnswerDelete (n : nat) (response : FetchResult unit).

(** One turn of the event loop: a user event the rendered table accepts, or
    the answer to the [n]-th request in flight. [None] when the table does
    not offer the event in this state. An event is handled against the
    render of the current state: the state changes a handler makes before
    its first [await] are rendered before the next event is dispatched, and
    a disabled control delivers no event. A render of the dashboard that
    leaves [data] as it is, after which the effect runs again because the
    column arrays are built anew, is not among the events. *)
Definition step (p : Props) (s : State) (e : Event) : option State :=
  match e with
  | ClickCell id field =>
      if cellClickable p s id field then Some (startEditing id field s) else None
  | InputChange id field value =>
      if controlsEnabled p s id field
      then Some (handleCellChange id field value s) else None
  | InputKeyDown id field k shiftKey =>
      if controlsEnabled p s id field
      then Some (handleKeyDown p k shiftKey id field s) else None
  | ClickSave id field =>
      if controlsEnabled p s id field
      then Some (saveCellValue p id field s) else None
  | ClickCancel id field =>
      if controlsEnabled p s id field then Some (cancelEdit id field s) else None
  | ClickAdd =>
      if isAddingRow s then None else Some (setIsAddingRow true s)
  | NewRowChange field value =>
      if isAddingRow s && hasColumn p field
      then Some (handleNewRowChange field value s) else None
  | ClickConfirmAdd =>
      if isAddingRow s then Some (addNewRow p s) else None
  | ClickCancelAdd =>
      if isAddingRow s then Some (cancelNewRow s) else None
  | ClickDelete id =>
      if hasRow id s then Some (onDelete_click id s) else None
  | Answer n response =>
      match requests s !! n with
      | Some (PATCH_item id field _) =>
          Some (saveCellValue_resume p id field response (answered n s))
      | Some (POST_item _) => Some (addNewRow_resume p response (answered n s))
      | _ => None
      end
  | AnswerDelete n response =>
      match requests s !! n with
      | Some (DELETE_item id) =>
          Some (onDelete_resume p id response (answered n s))
      | _ => None
      end
  end.

Fixpoint run (p : Props) (s : State) (es : list Event) : option State :=
  match es with
  | [] => Some s
  | e :: rest =>
      match step p s e with
      | Some s' => run p s' rest
      | None => None
      end
  end.

(** The table once the rows [d] have been loaded: nothing edited, nothing in
    flight. *)
Definition initial (p : Props) (d : list Item) : State :=
  mkState d ∅ (initialValues p d) ∅ false ∅ [] [] [].

(** The update calls in flight for one cell. *)
Definition inFlight (id field : jsstring) (s : State) : list Request :=
  List.filter (λ r,
    match r with
    | PATCH_item id' field' _ => bool_decide (id' = id ∧ field' = field)
    | _ => false
    end) (requests s).

(** The cells of the table in the order the effect visits them, each with
    its key and the value of its row. *)
Definition cellEntries (p : Props) (d : list Item) : list (jsstring * jsstring) :=
  item ← d;
  (λ column, (getCellKey (item_id item) (key column),
              orEmpty (fields item !! key column))) <$> columns p.

Definition cellKeys (p : Props) (d : list Item) : list jsstring :=
  (cellEntries p d).*1.

(** One assignment [obj[key] = value]. *)
Definition assign (m : gmap jsstring jsstring) (kv : jsstring * jsstring) :
    gmap jsstring jsstring :=
  <[kv.1 := kv.2]> m.

(** The cell keys of the update calls in flight, one entry per call. *)
Definition patchKeys (s : State) : list jsstring :=
  omap (λ r,
    match r with
    | PATCH_item id field _ => Some (getCellKey id field)
    | _ => None
    end) (requests s).

(** The loading set marks exactly the cells with an update call in flight,
    and no cell key has two. *)
Definition loading_tracks_requests (s : State) : Prop :=
  NoDup (patchKeys s) ∧ ∀ k, k ∈ loadingCells s ↔ k ∈ patchKeys s.

(** The value of a cell in the collection, as [cancelEdit] reads it:
    [data.find((item) => item.id === id)[field]]. *)
Definition authoritative (id field : jsstring) (s : State) : option jsstring :=
  match findItem id (data s) with
  | Some item => fields item !! field
  | None => None
  end.

End Grid.

(** ** The PATCH routes

    app/api/menu-items/[id]/route.ts and
    app/api/restaurant-details/[id]/route.ts, which differ in the table and
    in the fields they allow, over the table as a list of rows. The id
    reaches the route as the last segment of the request path. *)
Module Server.
Import Js Grid.

Inductive Table := menu_items | restaurant_details.

Definition allowedFields (t : Table) : list jsstring :=
  match t with
  | menu_items => [lit "name"; lit "price"; lit "description"]
  | restaurant_details => [lit "details"; lit "description"]
  end.

(** [update({ [field]: value })] on one row, with the trigger of
    create-tables.sql that stamps [updated_at]. *)
Definition updateRow (now field value : jsstring) (row : Item) : Item :=
  mkItem (item_id row)
    (<[lit "updated_at" := now]> (<[field := value]> (fields row))).

(** [.update(...).eq("id", id).select().single()]: the rows with that id are
    updated and returned; [single] makes anything but exactly one row an
    error, and the statement is then undone. *)
Definition update_eq_single (now : jsstring) (db : list Item)
    (id field value : jsstring) : list Item * option Item :=
  let db' := map (λ row,
    if bool_decide (item_id row = id) then updateRow now field value row
    else row) db in
  match filter (λ row, item_id row = id) db' with
  | [row] => (db', Some row)
  | _ => (db, None)
  end.

Definition PATCH (t : Table) (now : jsstring) (db : list Item)
    (id field : jsstring) (value : option jsstring) :
    list Item * FetchResult Item :=
  match value with
  | None => (db, NotOk 400)
  | Some v =>
      if negb (truthy id) || negb (truthy field) then (db, NotOk 400)
      else if negb (bool_decide (field ∈ allowedFields t)) then (db, NotOk 400)
      else
        match update_eq_single now db id field v with
        | (db', Some row) => (db', Ok row)
        | (db', None) => (db', NotOk 500)
        end
  end.

End Server.

(** ** Chat form *)
Module Chat.
Import Js Stream.

Inductive Role := user | assistant.

Inductive Locale := en | zh_TW.

Record StreamingMessage := mkMessage {
  role : Role;
  content : jsstring;
  isStreaming : option bool;
  isLoadingDots : option bool
}.

(** How the request of [sendMessage] ends: [fetch] rejects, the response is
    not ok, its body is not JSON, or it is ok and carries the text. *)
Inductive ChatOutcome :=
| FetchRejected
| ResponseNotOk (status : N) (errorBody : jsstring)
| ResponseNotJson
| ResponseOk (response : jsstring).

Definition failed (o : ChatOutcome) : bool :=
  match o with ResponseOk _ => false | _ => true end.

Record State := mkState {
  messages : list StreamingMessage;
  input : jsstring;
  isLoading : bool;
  sessionId : jsstring;
  streamCalls : list (jsstring * N)  (* the calls of streamTextByChar made *)
}.

Definition setMessages (f : list StreamingMessage → list StreamingMessage)
    (s : State) : State :=
  mkState (f (messages s)) (input s) (isLoading s) (sessionId s) (streamCalls s).

Definition setInput (v : jsstring) (s : State) : State :=
  mkState (messages s) v (isLoading s) (sessionId s) (streamCalls s).

Definition setIsLoading (b : bool) (s : State) : State :=
  mkState (messages s) (input s) b (sessionId s) (streamCalls s).

Definition called_streamTextByChar (text : jsstring) (delay : N) (s : State) : State :=
  mkState (messages s) (input s) (isLoading s) (sessionId s)
    (streamCalls s ++ [(text, delay)]).

Definition errorText (currentLanguage : Locale) : jsstring :=
  match currentLanguage with
  | en => lit "Sorry, an error occurred. Please try again."
  | zh_TW => [0x62B1; 0x6B49; 0xFF0C; 0x767C; 0x751F; 0x932F; 0x8AA4; 0xFF0C;
              0x8ACB; 0x518D; 0x8A66; 0x4E00; 0x6B21; 0x3002]
  end.

(** [if (newMessages[i]) newMessages[i] = f(newMessages[i])] on a copy. *)
Definition updateAt (i : nat) (f : StreamingMessage → StreamingMessage)
    (l : list StreamingMessage) : list StreamingMessage :=
  match l !! i with
  | Some m => <[i := f m]> l
  | None => l
  end.

(** [sendMessage] up to [await fetch]: nothing for a blank text, else the
    user message, the loading-dots placeholder and its index. The index is
    assigned inside the second [setMessages] updater, which runs on the
    render that follows the handler, after the first one has added the user
    message and before the request is answered. *)
Definition sendMessage (content : jsstring) (s : State) : State * option nat :=
  if negb (truthy (trim content)) then (s, None)
  else
    let s1 := setMessages (λ prev, prev ++ [mkMessage user content None None]) s in
    let s2 := setIsLoading true (setInput [] s1) in
    let assistantMessageIndex := length (messages s2) in
    (setMessages (λ prev, prev ++ [mkMessage assistant [] None (Some true)]) s2,
     Some assistantMessageIndex).

(** The [catch] branch. *)
Definition sendMessage_catch (currentLanguage : Locale)
    (assistantMessageIndex : nat) (s : State) : State :=
  setMessages (λ prev,
    match prev !! assistantMessageIndex with
    | Some _ =>
        <[assistantMessageIndex :=
            mkMessage assistant (errorText currentLanguage)
              (Some false) (Some false)]> prev
    | None => prev ++ [mkMessage assistant (errorText currentLanguage) None None]
    end) s.

(** [sendMessage] from the answer on. *)
Definition sendMessage_resume (currentLanguage : Locale)
    (assistantMessageIndex : nat) (o : ChatOutcome) (s : State) : State :=
  let s' :=
    match o with
    | ResponseOk response =>
        let s1 := setMessages (updateAt assistantMessageIndex (λ m,
          mkMessage (role m) [] (Some true) (Some false))) s in
        let s2 := foldl (λ st partialText,
          setMessages (updateAt assistantMessageIndex (λ m,
            mkMessage (role m) partialText (Some true) (Some false))) st)
          (called_streamTextByChar response 15 s1)
          (streamTextByChar response 15) in
        setMessages (updateAt assistantMessageIndex (λ m,
          mkMessage (role m) (content m) (Some false) (isLoadingDots m))) s2
    | _ => sendMessage_catch currentLanguage assistantMessageIndex s
    end in
  setIsLoading false s'.

(** A form with a question typed and nothing sent yet. *)
Definition idle : State := mkState [] (lit "hours?") false (lit "s-1") [].

End Chat.

(** ** Sample data

    The restaurant-details table of the dashboard with two rows, used to
    run the definitions on concrete inputs. *)
Module Sample.
Import Js Grid.

Definition restaurantColumns : list Column :=
  [ mkColumn (lit "details") (lit "Details") text (Some (lit "Opening Hours"));
    mkColumn (lit "description") (lit "Description") textarea
      (Some (lit "10:30 - 14:00 , 17:00-20:00")) ].

Definition props : Props := mkProps restaurantColumns true.

Definition hours : Item :=
  mkItem (lit "7d0c")
    (<[lit "details" := lit "Opening Hours"]>
       (<[lit "description" := lit "11:30-21:30"]> ∅)).

Definition phone : Item :=
  mkItem (lit "a41e")
    (<[lit "details" := lit "Phone"]>
       (<[lit "description" := lit "02-1234"]> ∅)).

Definition rows : list Item := [hours; phone].

(** The user has opened the description of the first row and typed a new
    value with blanks around it. *)
Definition typing : State :=
  handleCellChange (lit "7d0c") (lit "description") (lit " 11:00-22:00 ")
    (startEditing (lit "7d0c") (lit "description") (initial props rows)).

(** The same cell with only blanks typed. *)
Definition typing_blank : State :=
  handleCellChange (lit "7d0c") (lit "description") (lit "  ")
    (startEditing (lit "7d0c") (lit "description") (initial props rows)).

(** A draft row with the description missing, one with the details missing
    and a complete one. *)
Definition draft_no_description : State :=
  handleNewRowChange (lit "details") (lit "Parking")
    (setIsAddingRow true (initial props rows)).

Definition draft_no_details : State :=
  handleNewRowChange (lit "description") (lit "Behind the shop")
    (setIsAddingRow true (initial props rows)).

Definition draft_complete : State :=
  handleNewRowChange (lit "description") (lit "Behind the shop")
    draft_no_description.

Definition parking : Item :=
  mkItem (lit "c933")
    (<[lit "details" := lit "Parking"]>
       (<[lit "description" := lit "Behind the shop"]> ∅)).

Definition now : jsstring := lit "2025-06-01T10:00:00Z".

(** A click on the delete button of the first row, answered with status
    500. *)
Definition delete_refused : list Event :=
  [ ClickDelete (lit "7d0c"); AnswerDelete 0 (NotOk 500) ].

(** The first row as the PATCH route leaves it after the typed value has
    been committed. *)
Definition hours_updated : Item :=
  mkItem (lit "7d0c")
    (<[lit "updated_at" := now]>
       (<[lit "description" := lit "11:00-22:00"]> (fields hours))).

(** The events of a commit that is answered, and of one that is clicked
    again before the answer. *)
Definition commit_answered : list Event :=
  [ ClickCell (lit "7d0c") (lit "description");
    InputChange (lit "7d0c") (lit "description") (lit " 11:00-22:00 ");
    ClickSave (lit "7d0c") (lit "description") ].

End Sample.

(** ** The collection routes

    app/api/menu-items/route.ts and app/api/restaurant-details/route.ts:
    POST and DELETE, over the table as a list of rows. *)
Module Routes.
Import Js Grid Server.

(** The fields POST takes from the body: [{ name, price, description }] for
    a menu item, [{ details, description }] for a restaurant detail. *)
Definition postFields (t : Table) : list jsstring :=
  match t with
  | menu_items => [lit "name"; lit "price"; lit "description"]
  | restaurant_details => [lit "details"; lit "description"]
  end.

(** [!name || !price || !description]: a field that is absent or empty. *)
Definition missingField (body : gmap jsstring jsstring) (f : jsstring) : bool :=
  negb (truthy (orEmpty (body !! f))).

(** The object [{ name, price, description }] built from the body. *)
Definition picked (t : Table) (body : gmap jsstring jsstring) :
    gmap jsstring jsstring :=
  foldr (λ f row, <[f := orEmpty (body !! f)]> row) ∅ (postFields t).

(** The row [insert] stores: the id drawn by the column default, the given
    fields, and both time stamps set to the time of the insert. *)
Definition insertedRow (t : Table) (newId now : jsstring)
    (body : gmap jsstring jsstring) : Item :=
  mkItem newId
    (<[lit "created_at" := now]> (<[lit "updated_at" := now]> (picked t body))).

(** [POST]: a body with a field missing is refused with 400; an insert the
    primary key refuses is answered with 500; otherwise the stored row is
    the answer. *)
Definition POST (t : Table) (newId now : jsstring) (db : list Item)
    (body : gmap jsstring jsstring) : list Item * FetchResult Item :=
  if existsb (missingField body) (postFields t) then (db, NotOk 400)
  else if bool_decide (newId ∈ item_id <$> db) then (db, NotOk 500)
  else (db ++ [insertedRow t newId now body], Ok (insertedRow t newId now body)).

(** [DELETE]: [searchParams.get("id")] is [None] when the query has no id.
    The id column has type UUID: [uuid] tells which strings the store reads
    as one, and comparing the column with any other string is an error of
    the query. *)
Definition DELETE (uuid : jsstring → bool) (db : list Item)
    (id : option jsstring) : list Item * FetchResult unit :=
  match id with
  | None => (db, NotOk 400)
  | Some id =>
      if negb (truthy id) then (db, NotOk 400)
      else if negb (uuid id) then (db, NotOk 500)
      else (filter (λ row, item_id row ≠ id) db, Ok ())
  end.

End Routes.

(** ** Bold markers and line breaks

    [formatMessage] of the chat form and [parseMarkdownText] of the
    dashboard. Both look for the pattern [\*\*.*?\*\*]: two asterisks, as few
    characters as possible none of which ends a line, two asterisks. *)
Module Markdown.
Import Js.

Definition asterisk : N := 0x2A.

(** The code units the pattern's [.] does not match. *)
Definition isLineTerminator (c : N) : bool :=
  (c =? 0x0A) || (c =? 0x0D) || (c =? 0x2028) || (c =? 0x2029).

(** Whether the text after an opening marker reaches a closing marker
    before the end of its line. *)
Fixpoint closes (s : jsstring) : bool :=
  match s with
  | [] => false
  | c :: t =>
      match t with
      | d :: _ =>
          if (c =? asterisk) && (d =? asterisk) then true
          else if isLineTerminator c then false
          else closes t
      | [] => false
      end
  end.

(** [content.replace(/\*\*(.*?)\*\*/g, "<strong>$1</strong>")], scanning
    from the left: [bold] outside a match, [bold_inside] between the markers
    of one. *)
Fixpoint bold (s : jsstring) : jsstring :=
  match s with
  | [] => []
  | c :: t =>
      match t with
      | d :: t' =>
          if (c =? asterisk) && (d =? asterisk) && closes t'
          then lit "<strong>" ++ bold_inside t'
          else c :: bold t
      | [] => [c]
      end
  end
with bold_inside (s : jsstring) : jsstring :=
  match s with
  | [] => []
  | c :: t =>
      match t with
      | d :: t' =>
          if (c =? asterisk) && (d =? asterisk)
          then lit "</strong>" ++ bold t'
          else c :: bold_inside t
      | [] => [c]
      end
  end.

(** [formatted.replace(/\n/g, "<br />")] *)
Definition breaks (s : jsstring) : jsstring :=
  s ≫= λ c, if c =? 0x0A then lit "<br />" else [c].

Definition formatMessage (content : jsstring) : jsstring :=
  breaks (bold content).

(** What [parseMarkdownText] returns for a part: the string itself, or a
    [<strong>] element around a string. *)
Inductive Node :=
| Text (s : jsstring)
| Strong (boldText : jsstring).

(** [text.split] on the pattern, the whole of it a capturing group: the
    text between the matches and the matches themselves. [part] is the part
    being collected. *)
Fixpoint split (part : jsstring) (s : jsstring) : list jsstring :=
  match s with
  | [] => [part]
  | c :: t =>
      match t with
      | d :: t' =>
          if (c =? asterisk) && (d =? asterisk) && closes t'
          then part :: split_inside [asterisk; asterisk] t'
          else split (part ++ [c]) t
      | [] => [part ++ [c]]
      end
  end
with split_inside (part : jsstring) (s : jsstring) : list jsstring :=
  match s with
  | [] => [part]
  | c :: t =>
      match t with
      | d :: t' =>
          if (c =? asterisk) && (d =? asterisk)
          then (part ++ [asterisk; asterisk]) :: split [] t'
          else split_inside (part ++ [c]) t
      | [] => [part ++ [c]]
      end
  end.

Definition startsWith (s pre : jsstring) : bool :=
  bool_decide (take (length pre) s = pre).

Definition endsWith (s suf : jsstring) : bool :=
  bool_decide (drop (length s - length suf) s = suf)
  && bool_decide ((length suf ≤ length s)%nat).

(** [part.slice(2, -2)] *)
Definition slice_2_2 (part : jsstring) : jsstring :=
  take (length part - 2 - 2) (drop 2 part).

(** The callback of [parts.map]. *)
Definition toNode (part : jsstring) : Node :=
  if startsWith part (lit "**") && endsWith part (lit "**")
  then Strong (slice_2_2 part)
  else Text part.

Definition parseMarkdownText (text : jsstring) : list Node :=
  toNode <$> split [] text.

End Markdown.

(** ** Registration form

    [handleSubmit] of components/auth/register-form.tsx. *)
Module Register.
Import Js.

Record State := mkState {
  email : jsstring;
  password : jsstring;
  confirmPassword : jsstring;
  adminCode : jsstring;
  isLoading : bool;
  error : jsstring;
  success : jsstring;
  signUps : list (jsstring * jsstring);  (* calls of signUp: email, password *)
  redirects : nat                         (* redirects to /admin scheduled *)
}.

Definition setError (e : jsstring) (s : State) : State :=
  mkState (email s) (password s) (confirmPassword s) (adminCode s)
    (isLoading s) e (success s) (signUps s) (redirects s).

Definition setSuccess (m : jsstring) (s : State) : State :=
  mkState (email s) (password s) (confirmPassword s) (adminCode s)
    (isLoading s) (error s) m (signUps s) (redirects s).

Definition setIsLoading (b : bool) (s : State) : State :=
  mkState (email s) (password s) (confirmPassword s) (adminCode s)
    b (error s) (success s) (signUps s) (redirects s).

Definition signUp (s : State) : State :=
  mkState (email s) (password s) (confirmPassword s) (adminCode s)
    (isLoading s) (error s) (success s)
    (signUps s ++ [(email s, password s)]) (redirects s).

Definition scheduleRedirect (s : State) : State :=
  mkState (email s) (password s) (confirmPassword s) (adminCode s)
    (isLoading s) (error s) (success s) (signUps s) (S (redirects s)).

Definition msg (isEnglish : bool) (en : string) (zh : jsstring) : jsstring :=
  if isEnglish then lit en else zh.

Definition invalidCode (isEnglish : bool) : jsstring :=
  msg isEnglish
    "Invalid admin code. Please contact the administrator for the correct code."
    [0x7BA1; 0x7406; 0x54E1; 0x4EE3; 0x78BC; 0x7121; 0x6548; 0x3002; 0x8ACB;
     0x806F; 0x7E6B; 0x7BA1; 0x7406; 0x54E1; 0x7372; 0x53D6; 0x6B63; 0x78BA;
     0x4EE3; 0x78BC; 0x3002].

Definition noMatch (isEnglish : bool) : jsstring :=
  msg isEnglish "Passwords do not match" [0x5BC6; 0x78BC; 0x4E0D; 0x5339; 0x914D].

Definition tooShort (isEnglish : bool) : jsstring :=
  msg isEnglish "Password must be at least 6 characters long"
    [0x5BC6; 0x78BC; 0x5FC5; 0x9808; 0x81F3; 0x5C11; 0x36; 0x500B; 0x5B57;
     0x7B26].

Definition registered (isEnglish : bool) : jsstring :=
  msg isEnglish
    "Registration successful! Please check your email to confirm your account."
    [0x8A3B; 0x518A; 0x6210; 0x529F; 0xFF01; 0x8ACB; 0x6AA2; 0x67E5; 0x60A8;
     0x7684; 0x96FB; 0x5B50; 0x90F5; 0x4EF6; 0x4EE5; 0x78BA; 0x8A8D; 0x60A8;
     0x7684; 0x5E33; 0x6236; 0x3002].

Definition unexpected (isEnglish : bool) : jsstring :=
  msg isEnglish "An unexpected error occurred. Please try again."
    [0x767C; 0x751F; 0x610F; 0x5916; 0x932F; 0x8AA4; 0x3002; 0x8ACB; 0x91CD;
     0x8A66; 0x3002].

(** [handleSubmit] up to [await supabase.auth.signUp]: the three checks in
    their order, then the loading flag and the call. *)
Definition handleSubmit (isEnglish : bool) (s : State) : State :=
  let s0 := setSuccess [] (setError [] s) in
  if negb (bool_decide (adminCode s0 = lit "123456"))
  then setError (invalidCode isEnglish) s0
  else if negb (bool_decide (password s0 = confirmPassword s0))
  then setError (noMatch isEnglish) s0
  else if (length (password s0) <? 6)%nat
  then setError (tooShort isEnglish) s0
  else signUp (setIsLoading true s0).

(** How [signUp] ends: it answers with an error, with a user, with neither,
    or it throws. *)
Inductive SignUpResult :=
| SignUpError (message : jsstring)
| SignUpUser
| SignUpNothing
| SignUpThrew.

(** [handleSubmit] from the answer on. *)
Definition handleSubmit_resume (isEnglish : bool) (r : SignUpResult)
    (s : State) : State :=
  let s' :=
    match r with
    | SignUpError message => setError message s
    | SignUpUser => scheduleRedirect (setSuccess (registered isEnglish) s)
    | SignUpNothing => s
    | SignUpThrew => setError (unexpected isEnglish) s
    end in
  setIsLoading false s'.

End Register.

(** ** Conditions on the states of the grid editor *)
Module Checks.
Import Js Grid.

(** Every cell marked as loading is in editing. *)
Definition saving_within_editing (s : State) : Prop :=
  loadingCells s ⊆ editingCells s.

(** An update carries a value that is not empty and has no white space at
    either end; a created row carries a value that is not blank for every
    column of the schema. *)
Definition request_wellformed (p : Props) (r : Request) : Prop :=
  match r with
  | PATCH_item _ _ value => value ≠ [] ∧ trim value = value
  | POST_item item =>
      ∀ col, col ∈ columns p →
        forallb isWhiteSpace (orEmpty (item !! key col)) = false
  | DELETE_item _ => True
  end.

(** While no row is being added the draft is empty. *)
Definition draft_only_while_adding (s : State) : Prop :=
  isAddingRow s = false → newRow s = ∅.

(** The three conditions together. *)
Definition checks (p : Props) (s : State) : Prop :=
  saving_within_editing s
  ∧ Forall (request_wellformed p) (requests s)
  ∧ draft_only_while_adding s.

(** The user types into the fields of the draft row, one change per pair
    of a field and a value. *)
Definition typeDraft (edits : list (jsstring * jsstring)) : list Event :=
  (λ e, NewRowChange e.1 e.2) <$> edits.

(** The column schema of the menu table, with its English labels. *)
Definition menuColumns : list Column :=
  [ mkColumn (lit "name") (lit "Item Name") text
      (Some (lit "Limited Item - Coffee Milk Liquor"));
    mkColumn (lit "price") (lit "Price") text (Some (lit "NT.100"));
    mkColumn (lit "description") (lit "Description") textarea
      (Some (lit "Coffee-flavored milk liquor")) ].

End Checks.

(** ** More sample data *)
Module Cases.
Import Js Grid.

(** The table after the first row has been deleted. *)
Definition after_delete : State := initial Sample.props [Sample.phone].

(** The events that open the draft row, fill it in and confirm it, and
    those that open it, type into it and cancel. *)
Definition confirm_draft : list Event :=
  [ ClickAdd;
    NewRowChange (lit "details") (lit "Parking");
    NewRowChange (lit "description") (lit "Behind the shop");
    ClickConfirmAdd ].

Definition parking_edits : list (jsstring * jsstring) :=
  [ (lit "details", lit "Parking"); (lit "description", lit " behind ") ].

(** A request body with the description missing, and one with a key the
    route does not name. *)
Definition body_no_description : gmap jsstring jsstring :=
  <[lit "details" := lit "Parking"]> ∅.

Definition body_with_id : gmap jsstring jsstring :=
  <[lit "id" := lit "7d0c"]>
    (<[lit "details" := lit "Parking"]>
       (<[lit "description" := lit "Behind the shop"]> ∅)).

(** A store that reads every string as a UUID. *)
Definition any_uuid (id : jsstring) : bool := true.

(** A registration form filled in. *)
Definition form : Register.State :=
  Register.mkState (lit "chef@menya.tw") (lit "ramen-42") (lit "ramen-42")
    (lit "123456") false [] [] [] 0.

End Cases.

Section JsStringFacts.
Import Js.

Lemma trimStart_app_nonws (s : jsstring) :
  trimStart s = [] ∨ ∃ c t, trimStart s = c :: t ∧ isWhiteSpace c = false.
Proof.
  induction s as [|c s IH]; simpl; [by left|].
  destruct (isWhiteSpace c) eqn:E; [exact IH|].
  right. by exists c, s.
Qed.

Lemma chars_pair (c d : N) (rest : jsstring) :
  isHighSurrogate c && isLowSurrogate d = true →
  chars (c :: d :: rest) = [c; d] :: chars rest.
Proof.
  intros H.
  change (chars (c :: d :: rest))
    with (if isHighSurrogate c && isLowSurrogate d
          then [c; d] :: chars rest else [c] :: chars (d :: rest)).
  by rewrite H.
Qed.

Lemma chars_single (c d : N) (rest : jsstring) :
  isHighSurrogate c && isLowSurrogate d = false →
  chars (c :: d :: rest) = [c] :: chars (d :: rest).
Proof.
  intros H.
  change (chars (c :: d :: rest))
    with (if isHighSurrogate c && isLowSurrogate d
          then [c; d] :: chars rest else [c] :: chars (d :: rest)).
  by rewrite H.
Qed.

(** Induction following the way [chars] consumes its argument. *)
Lemma chars_ind (P : jsstring → Prop) :
  P [] →
  (∀ c, P [c]) →
  (∀ c d rest, isHighSurrogate c && isLowSurrogate d = true →
     P rest → P (c :: d :: rest)) →
  (∀ c d rest, isHighSurrogate c && isLowSurrogate d = false →
     P (d :: rest) → P (c :: d :: rest)) →
  ∀ s, P s.
Proof.
  intros Hnil Hone Hpair Hsingle s.
  assert (H : P s ∧ ∀ c, P (c :: s)); [|tauto].
  induction s as [|d rest [IH1 IH2]]; [by split|].
  split; [apply IH2|]. intros c.
  destruct (isHighSurrogate c && isLowSurrogate d) eqn:E.
  - by apply Hpair.
  - apply Hsingle; [done|]. apply IH2.
Qed.

Lemma chars_concat (s : jsstring) : concat (chars s) = s.
Proof.
  induction s as [| c | c d rest E IH | c d rest E IH] using chars_ind;
    [done | done | |].
  - rewrite chars_pair by done. cbn [concat app]. by rewrite IH.
  - rewrite chars_single by done. cbn [concat app]. by rewrite IH.
Qed.

End JsStringFacts.

(** ** Facts about trimming *)
Section TrimFacts.
Import Js.

Lemma trimStart_all_ws (s : jsstring) :
  trimStart s = [] ↔ forallb isWhiteSpace s = true.
Proof.
  induction s as [|c s IH]; simpl; [done|].
  destruct (isWhiteSpace c); simpl; [done|].
  split; discriminate.
Qed.

Lemma forallb_rev_ws (s : jsstring) :
  forallb isWhiteSpace (rev s) = forallb isWhiteSpace s.
Proof.
  induction s as [|c s IH]; simpl; [done|].
  rewrite forallb_app, IH. simpl. rewrite andb_true_r. apply andb_comm.
Qed.

(** A string trims to nothing exactly when it is empty or all white space. *)
Lemma trim_nil_iff (s : jsstring) :
  trim s = [] ↔ forallb isWhiteSpace s = true.
Proof.
  unfold trim, trimEnd. split.
  - intros H. apply (f_equal (@rev N)) in H. rewrite rev_involutive in H.
    simpl in H. apply trimStart_all_ws in H. rewrite forallb_rev_ws in H.
    destruct (trimStart_app_nonws s) as [E | (c & t & E & Hc)].
    + by apply trimStart_all_ws.
    + rewrite E in H. simpl in H. by rewrite Hc in H.
  - intros H. apply trimStart_all_ws in H. by rewrite H.
Qed.

Lemma truthy_trim (s : jsstring) :
  truthy (trim s) = negb (forallb isWhiteSpace s).
Proof.
  destruct (forallb isWhiteSpace s) eqn:E.
  - apply trim_nil_iff in E. by rewrite E.
  - destruct (trim s) eqn:T; [|done].
    apply trim_nil_iff in T. congruence.
Qed.

End TrimFacts.

(** ** The grid editor: single operations *)
Section GridOperations.
Import Js Grid.

Implicit Types (p : Props) (s : State) (id field value : jsstring).

Lemma not_elem_of_remove (X : gset jsstring) (k : jsstring) : k ∉ X ∖ {[k]}.
Proof. rewrite elem_of_difference, elem_of_singleton. tauto. Qed.

Lemma findItem_head id (d : list Item) :
  findItem id d = head (filter (λ item, item_id item = id) d).
Proof.
  unfold findItem. induction d as [|item d IH]; [done|].
  cbn [List.find]. rewrite filter_cons.
  destruct (decide (item_id item = id)) as [E|E].
  - by rewrite bool_decide_eq_true_2.
  - by rewrite bool_decide_eq_false_2.
Qed.

Lemma findItem_Some id (d : list Item) (item : Item) :
  findItem id d = Some item → item ∈ d ∧ item_id item = id.
Proof.
  unfold findItem. intros H. apply find_some in H as [Hin Hid].
  split; [by apply list_elem_of_In|]. by apply bool_decide_eq_true in Hid.
Qed.

Lemma hasRow_findItem id s :
  hasRow id s = true → ∃ item, findItem id (data s) = Some item.
Proof.
  unfold hasRow, findItem. intros H.
  apply existsb_exists in H as (item & Hin & Hid).
  destruct (List.find _ (data s)) as [found|] eqn:E; [by exists found|].
  eapply find_none in E; [|exact Hin]. congruence.
Qed.

(** Replacing every row of an id by one row of that id makes it the row
    found for the id. *)
Lemma findItem_replace id (d : list Item) (updatedItem : Item) :
  item_id updatedItem = id →
  (∃ item, findItem id d = Some item) →
  findItem id
    (map (λ item, if bool_decide (item_id item = id) then updatedItem else item) d)
  = Some updatedItem.
Proof.
  intros Hid [found Hfound]. unfold findItem in *.
  induction d as [|item d IH]; [done|].
  cbn [map List.find] in *.
  destruct (bool_decide (item_id item = id)) eqn:E.
  - by rewrite bool_decide_eq_true_2.
  - rewrite E. by apply IH.
Qed.

(** C2: committing a pending value that is empty or only white space issues
    no request, shows the destructive "Field cannot be empty" notice and
    changes nothing else, so a cell being edited stays in editing. *)
Theorem C2_commit_blank_rejected p s id field :
  forallb isWhiteSpace (orEmpty (cellValues s !! getCellKey id field)) = true →
  let s' := saveCellValue p id field s in
  requests s' = requests s
  ∧ toasts s' = toasts s ++ [toast_fieldEmpty p]
  ∧ variant (toast_fieldEmpty p) = Some destructive
  ∧ editingCells s' = editingCells s
  ∧ (isEditing s id field = true → isEditing s' id field = true)
  ∧ loadingCells s' = loadingCells s
  ∧ cellValues s' = cellValues s
  ∧ data s' = data s.
Proof.
  intros Hblank. unfold saveCellValue.
  rewrite truthy_trim, Hblank. by cbn.
Qed.

(** C6: cancelling the edit of a cell whose row is in the collection sets
    the pending value back to the row's value, whatever was typed, takes the
    cell out of editing, and issues no request. *)
Theorem C6_cancel_restores s id field (originalItem : Item) :
  findItem id (data s) = Some originalItem →
  let s' := cancelEdit id field s in
  cellValues s' !! getCellKey id field
    = Some (orEmpty (authoritative id field s))
  ∧ isEditing s' id field = false
  ∧ requests s' = requests s
  ∧ data s' = data s.
Proof.
  intros Hfound. unfold cancelEdit, authoritative. rewrite Hfound. cbn.
  split; [by rewrite lookup_insert_eq|].
  split; [|done].
  unfold isEditing. cbn. apply bool_decide_eq_false, not_elem_of_remove.
Qed.

(** Editing is cleared by [cancelEdit] for a row that is gone as well. *)
Lemma cancelEdit_clears_editing s id field :
  isEditing (cancelEdit id field s) id field = false
  ∧ requests (cancelEdit id field s) = requests s.
Proof.
  unfold cancelEdit, isEditing.
  destruct (findItem id (data s)); cbn;
    (split; [apply bool_decide_eq_false, not_elem_of_remove | done]).
Qed.

Lemma saveCellValue_resume_loading p s id field (response : FetchResult Item) :
  loadingCells (saveCellValue_resume p id field response s)
  = loadingCells s ∖ {[getCellKey id field]}.
Proof. unfold saveCellValue_resume. by destruct response. Qed.

(** C10: however the update ends (ok, not ok, no answer), the rest of
    [saveCellValue] takes the cell out of the loading set and leaves the
    other cells' marks alone. *)
Theorem C10_loading_cleared p s id field (response : FetchResult Item) :
  let s' := saveCellValue_resume p id field response s in
  isLoading s' id field = false
  ∧ loadingCells s' = loadingCells s ∖ {[getCellKey id field]}.
Proof.
  cbv zeta. split; [|apply saveCellValue_resume_loading].
  unfold isLoading. rewrite saveCellValue_resume_loading.
  apply bool_decide_eq_false, not_elem_of_remove.
Qed.

(** C5 (what the code does): when the delete request is answered not ok,
    the collection is left as it was, but no notice is shown: the error
    thrown by [deleteMenuItem] ends up as an unhandled rejection. *)
Theorem C5_delete_failure_unnoticed p s id (status : N) :
  let s' := onDelete_resume p id (NotOk status) s in
  data s' = data s
  ∧ toasts s' = toasts s
  ∧ unhandledRejections s'
    = unhandledRejections s ++ [lit "Failed to delete menu item"].
Proof. done. Qed.

(** What an ok answer of the PATCH route carries: the one row of that id,
    now holding the sent value in the field, stored in the table. *)
Lemma PATCH_ok_row (t : Server.Table) (now : jsstring) (db db' : list Item)
    id field value (row : Item) :
  Server.PATCH t now db id field (Some value) = (db', Ok row) →
  item_id row = id
  ∧ fields row !! field = Some value
  ∧ findItem id db' = Some row
  ∧ ∃ old, old ∈ db ∧ item_id old = id
      ∧ row = Server.updateRow now field value old.
Proof.
  unfold Server.PATCH.
  destruct (negb (truthy id) || negb (truthy field)); [discriminate|].
  destruct (bool_decide (field ∈ Server.allowedFields t)) eqn:Hallowed;
    [|discriminate]. cbn [negb].
  unfold Server.update_eq_single.
  set (upd := λ r : Item,
    if bool_decide (item_id r = id) then Server.updateRow now field value r
    else r).
  destruct (filter _ (map upd db)) as [|r [|r' rest]] eqn:Hf; try discriminate.
  intros [= <- <-].
  assert (Hr : r ∈ filter (λ x, item_id x = id) (map upd db))
    by (rewrite Hf; apply list_elem_of_here).
  apply list_elem_of_filter in Hr as [Hid Hin].
  split; [done|].
  apply list_elem_of_fmap in Hin as (old & Hr & Hold).
  assert (Hold_id : item_id old = id).
  { subst r. unfold upd in Hid. by case_bool_decide. }
  assert (Hrow : r = Server.updateRow now field value old).
  { subst r. unfold upd. by rewrite bool_decide_eq_true_2. }
  split; [|split; [|by exists old]].
  - rewrite Hrow. cbn.
    apply bool_decide_eq_true in Hallowed.
    rewrite lookup_insert_ne; [apply lookup_insert_eq|].
    intros <-. destruct t; cbn [Server.allowedFields] in Hallowed;
      rewrite !elem_of_cons, elem_of_nil in Hallowed;
      by repeat destruct Hallowed as [?|Hallowed].
  - by rewrite findItem_head, Hf.
Qed.

(** The client's half of a successful commit, for any ok answer that
    carries the row of the id. *)
Lemma saveCellValue_resume_ok p s id field (updatedItem : Item) :
  item_id updatedItem = id →
  hasRow id s = true →
  let s' := saveCellValue_resume p id field (Ok updatedItem) s in
  authoritative id field s' = fields updatedItem !! field
  ∧ isEditing s' id field = false
  ∧ isLoading s' id field = false
  ∧ toasts s' = toasts s ++ [toast_updated p].
Proof.
  intros Hid Hrow. cbv zeta. unfold authoritative.
  assert (Hdata : data (saveCellValue_resume p id field (Ok updatedItem) s)
    = map (λ item,
        if bool_decide (item_id item = id) then updatedItem else item) (data s))
    by done.
  rewrite Hdata, findItem_replace by (done || by apply hasRow_findItem).
  split; [done|].
  unfold isEditing, isLoading. cbn.
  split; [|split; [|done]]; apply bool_decide_eq_false, not_elem_of_remove.
Qed.

(** C1: a commit of a pending value that trims to a non-empty [v], on a
    cell whose row is in the collection, sends [v]; when the PATCH route of
    the table answers ok, the row found for the id in the collection holds [v] in the
    field, as does the stored row, and the cell is no longer in editing. *)
Theorem C1_commit_success p s id field (t : Server.Table) (now : jsstring)
    (db db' : list Item) (row : Item) :
  let v := trim (orEmpty (cellValues s !! getCellKey id field)) in
  v ≠ [] →
  hasRow id s = true →
  Server.PATCH t now db id field (Some v) = (db', Ok row) →
  let s1 := saveCellValue p id field s in
  let s2 := saveCellValue_resume p id field (Ok row)
              (answered (length (requests s)) s1) in
  requests s1 = requests s ++ [PATCH_item id field v]
  ∧ requests s2 = requests s
  ∧ authoritative id field s2 = Some v
  ∧ isEditing s2 id field = false
  ∧ (∃ stored, findItem id db' = Some stored ∧ fields stored !! field = Some v).
Proof.
  intros v Hv Hrow Hpatch s1 s2.
  apply PATCH_ok_row in Hpatch as (Hid & Hfield & Hstored & _).
  assert (Hs1 : s1 = updateMenuItem id field v
                  (setLoadingCells (λ prev, prev ∪ {[getCellKey id field]}) s)).
  { unfold s1, saveCellValue. fold v. by destruct v. }
  split; [by rewrite Hs1|].
  split.
  { unfold s2. rewrite Hs1. cbn.
    by rewrite delete_middle, app_nil_r. }
  destruct (saveCellValue_resume_ok p (answered (length (requests s)) s1)
              id field row Hid) as (Hauth & Hedit & _).
  { by rewrite Hs1. }
  split; [by unfold s2; rewrite Hauth|].
  split; [exact Hedit|].
  by exists row.
Qed.

(** C4 (as the code has it): with a column whose draft field is missing,
    empty or only white space, [addNewRow] shows the notice "Please fill all
    fields", the same whichever fields are missing, issues no request and
    leaves the draft and the collection as they were; with every field
    filled it sends the draft, and when the answer is ok the created row is
    put in front of the collection, the draft is emptied and closed. *)
Theorem C4_confirm_add p s :
  (∀ col, col ∈ columns p →
     forallb isWhiteSpace (orEmpty (newRow s !! key col)) = true →
     addNewRow p s = toast (toast_fillAll p) s
     ∧ requests (addNewRow p s) = requests s
     ∧ newRow (addNewRow p s) = newRow s
     ∧ isAddingRow (addNewRow p s) = isAddingRow s
     ∧ data (addNewRow p s) = data s)
  ∧ ((∀ col, col ∈ columns p →
        forallb isWhiteSpace (orEmpty (newRow s !! key col)) = false) →
     ∀ newItem : Item,
     let s1 := addNewRow p s in
     let s2 := addNewRow_resume p (Ok newItem)
                 (answered (length (requests s)) s1) in
     requests s1 = requests s ++ [POST_item (newRow s)]
     ∧ requests s2 = requests s
     ∧ data s2 = newItem :: data s
     ∧ newRow s2 = ∅
     ∧ isAddingRow s2 = false
     ∧ toasts s2 = toasts s ++ [toast_added p]).
Proof.
  split.
  - intros col Hcol Hblank.
    assert (Hmissing : col ∈ missingFields p s).
    { unfold missingFields. apply list_elem_of_In, filter_In.
      split; [by apply list_elem_of_In|]. by rewrite truthy_trim, Hblank. }
    assert (E : addNewRow p s = toast (toast_fillAll p) s).
    { unfold addNewRow. destruct (missingFields p s); [|done].
      by apply elem_of_nil in Hmissing. }
    by rewrite E.
  - intros Hfilled newItem s1 s2.
    assert (Hnone : missingFields p s = []).
    { unfold missingFields.
      induction (columns p) as [|col cols IH]; [done|]. cbn [List.filter].
      rewrite truthy_trim, Hfilled by apply list_elem_of_here.
      cbn. apply IH. intros c Hc. apply Hfilled. by apply list_elem_of_further. }
    assert (Hs1 : s1 = addMenuItem (newRow s) s).
    { unfold s1, addNewRow. by rewrite Hnone. }
    split; [by rewrite Hs1|].
    unfold s2. rewrite Hs1. cbn.
    by rewrite delete_middle, app_nil_r.
Qed.

(** C4, the part the code does not do: the notice cannot name the missing
    fields. No reading of the notice gives them back, since two drafts with
    different fields missing get the same notice. *)
Lemma C4_notice_names_no_field :
  ¬ ∃ named : Toast → list jsstring,
      ∀ s, missingFields Sample.props s ≠ [] →
        named <$> last (toasts (addNewRow Sample.props s))
        = Some (map key (missingFields Sample.props s)).
Proof.
  intros [named H].
  pose proof (H Sample.draft_no_description) as H1.
  pose proof (H Sample.draft_no_details) as H2.
  assert (E1 : missingFields Sample.props Sample.draft_no_description
               = [mkColumn (lit "description") (lit "Description") textarea
                    (Some (lit "10:30 - 14:00 , 17:00-20:00"))])
    by (vm_compute; reflexivity).
  assert (E2 : missingFields Sample.props Sample.draft_no_details
               = [mkColumn (lit "details") (lit "Details") text
                    (Some (lit "Opening Hours"))])
    by (vm_compute; reflexivity).
  unfold addNewRow in H1, H2. rewrite E1 in H1. rewrite E2 in H2.
  specialize (H1 ltac:(discriminate)). specialize (H2 ltac:(discriminate)).
  cbn [length Nat.ltb Nat.leb toast toasts] in H1, H2.
  rewrite last_snoc in H1, H2. cbn in H1, H2.
  rewrite H1 in H2. discriminate H2.
Qed.

End GridOperations.

(** ** The grid editor as an event loop *)
Section GridEventLoop.
Import Js Grid.

Implicit Types (p : Props) (s : State) (id field value : jsstring)
  (e : Event) (es : list Event).

Lemma tracks_frame s s' :
  loadingCells s' = loadingCells s →
  patchKeys s' = patchKeys s →
  loading_tracks_requests s → loading_tracks_requests s'.
Proof. unfold loading_tracks_requests. by intros -> ->. Qed.

Lemma initial_tracks p (d : list Item) : loading_tracks_requests (initial p d).
Proof.
  split; [apply NoDup_nil_2|]. intros k. cbn.
  rewrite elem_of_empty, elem_of_nil. tauto.
Qed.

Lemma saveCellValue_tracks p s id field :
  isLoading s id field = false →
  loading_tracks_requests s →
  loading_tracks_requests (saveCellValue p id field s).
Proof.
  intros Hidle [Hnodup Hiff]. unfold saveCellValue.
  destruct (negb _); [by split|].
  apply bool_decide_eq_false in Hidle.
  unfold loading_tracks_requests, patchKeys. cbn.
  rewrite omap_app. cbn. fold (patchKeys s). split.
  - apply NoDup_app. split; [done|]. split; [|apply NoDup_singleton].
    intros k Hk ->%list_elem_of_singleton. by apply Hidle, Hiff.
  - intros k. rewrite elem_of_union, elem_of_singleton, elem_of_app,
      list_elem_of_singleton, Hiff. tauto.
Qed.

Lemma cancelEdit_frame s id field :
  loadingCells (cancelEdit id field s) = loadingCells s
  ∧ requests (cancelEdit id field s) = requests s.
Proof. unfold cancelEdit. by destruct (findItem id (data s)). Qed.

Lemma handleKeyDown_tracks p s (k : jsstring) (shiftKey : bool) id field :
  isLoading s id field = false →
  loading_tracks_requests s →
  loading_tracks_requests (handleKeyDown p k shiftKey id field s).
Proof.
  intros Hidle Hinv. unfold handleKeyDown.
  destruct (_ && _); [by apply saveCellValue_tracks|].
  destruct (bool_decide _); [|done].
  destruct (cancelEdit_frame s id field) as [Hl Hr].
  eapply (tracks_frame s); [exact Hl | | exact Hinv].
  unfold patchKeys. by rewrite Hr.
Qed.

Lemma addNewRow_tracks p s :
  loading_tracks_requests s → loading_tracks_requests (addNewRow p s).
Proof.
  intros Hinv. unfold addNewRow. destruct (_ <? _)%nat; [done|].
  eapply (tracks_frame s); [done | | exact Hinv].
  unfold patchKeys. cbn. rewrite omap_app. cbn. apply app_nil_r.
Qed.

Lemma onDelete_click_tracks s id :
  loading_tracks_requests s → loading_tracks_requests (onDelete_click id s).
Proof.
  intros Hinv. eapply (tracks_frame s); [done | | exact Hinv].
  unfold patchKeys. cbn. rewrite omap_app. cbn. apply app_nil_r.
Qed.

Lemma saveCellValue_resume_requests p s id field (response : FetchResult Item) :
  requests (saveCellValue_resume p id field response s) = requests s.
Proof. unfold saveCellValue_resume. by destruct response. Qed.

Lemma addNewRow_resume_frame p s (response : FetchResult Item) :
  loadingCells (addNewRow_resume p response s) = loadingCells s
  ∧ requests (addNewRow_resume p response s) = requests s.
Proof. unfold addNewRow_resume. by destruct response. Qed.

Lemma onDelete_resume_frame p s id (response : FetchResult unit) :
  loadingCells (onDelete_resume p id response s) = loadingCells s
  ∧ requests (onDelete_resume p id response s) = requests s.
Proof. unfold onDelete_resume. by destruct response. Qed.

(** The keys left when the [n]-th request is answered. *)
Lemma patchKeys_answered s (n : nat) (r : Request) :
  requests s !! n = Some r →
  ∃ before after,
    patchKeys (answered n s) = before ++ after
    ∧ patchKeys s =
        before ++
        match r with
        | PATCH_item id field _ => getCellKey id field :: after
        | _ => after
        end.
Proof.
  intros Hn. unfold patchKeys.
  pose proof (take_drop_middle (requests s) n r Hn) as Hsplit.
  set (f := λ r : Request,
    match r with
    | PATCH_item id field _ => Some (getCellKey id field)
    | _ => None
    end).
  exists (omap f (take n (requests s))), (omap f (drop (S n) (requests s))).
  split.
  - cbn. by rewrite delete_take_drop, omap_app.
  - rewrite <- Hsplit at 1. rewrite omap_app. f_equal. by destruct r.
Qed.

Lemma step_tracks p s e s' :
  step p s e = Some s' →
  loading_tracks_requests s → loading_tracks_requests s'.
Proof.
  intros Hstep Hinv. destruct e; cbn in Hstep.
  - destruct (cellClickable _ _ _ _); by simplify_eq.
  - destruct (controlsEnabled _ _ _ _); by simplify_eq.
  - destruct (controlsEnabled _ _ _ _) eqn:E; simplify_eq.
    apply handleKeyDown_tracks; [|done].
    apply andb_true_iff in E as [_ E]. by apply negb_true_iff.
  - destruct (controlsEnabled _ _ _ _) eqn:E; simplify_eq.
    apply saveCellValue_tracks; [|done].
    apply andb_true_iff in E as [_ E]. by apply negb_true_iff.
  - destruct (controlsEnabled _ _ _ _); simplify_eq.
    destruct (cancelEdit_frame s id field) as [Hl Hr].
    eapply (tracks_frame s); [exact Hl | | exact Hinv].
    unfold patchKeys. by rewrite Hr.
  - destruct (isAddingRow s); by simplify_eq.
  - destruct (_ && _); by simplify_eq.
  - destruct (isAddingRow s); simplify_eq. by apply addNewRow_tracks.
  - destruct (isAddingRow s); by simplify_eq.
  - destruct (hasRow _ _); simplify_eq. by apply onDelete_click_tracks.
  - destruct (requests s !! n) as [r|] eqn:Hn; [|done].
    destruct (patchKeys_answered s n r Hn) as (before & after & Hafter & Hbefore).
    destruct Hinv as [Hnodup Hiff].
    destruct r as [id field v | item | id]; simplify_eq.
    + unfold loading_tracks_requests, patchKeys.
      rewrite saveCellValue_resume_requests, saveCellValue_resume_loading.
      fold (patchKeys (answered n s)). rewrite Hafter.
      rewrite Hbefore in Hnodup.
      apply NoDup_app in Hnodup as (Hb & Hdisj & [Hk Ha]%NoDup_cons).
      split.
      * apply NoDup_app. split; [done|]. split; [|done].
        intros k Hkb Hka. apply (Hdisj k Hkb). by apply list_elem_of_further.
      * intros k. cbn. rewrite elem_of_difference, elem_of_singleton, Hiff,
          Hbefore, !elem_of_app, elem_of_cons.
        split; [tauto|].
        intros [Hkb | Hka].
        -- split; [tauto|]. intros ->. apply (Hdisj _ Hkb), list_elem_of_here.
        -- split; [tauto|]. by intros ->.
    + destruct (addNewRow_resume_frame p (answered n s) response) as [Hl Hr].
      eapply (tracks_frame (answered n s)).
      * exact Hl.
      * unfold patchKeys. by rewrite Hr.
      * split; [by rewrite Hafter, <- Hbefore|].
        intros k. rewrite Hafter, <- Hbefore. apply Hiff.
  - destruct (requests s !! n) as [r|] eqn:Hn; [|done].
    destruct (patchKeys_answered s n r Hn) as (before & after & Hafter & Hbefore).
    destruct Hinv as [Hnodup Hiff].
    destruct r as [id field v | item | id]; simplify_eq.
    destruct (onDelete_resume_frame p (answered n s) id response) as [Hl Hr].
    eapply (tracks_frame (answered n s)).
    + exact Hl.
    + unfold patchKeys. by rewrite Hr.
    + split; [by rewrite Hafter, <- Hbefore|].
      intros k. rewrite Hafter, <- Hbefore. apply Hiff.
Qed.

Lemma run_tracks p s es s' :
  run p s es = Some s' →
  loading_tracks_requests s → loading_tracks_requests s'.
Proof.
  revert s. induction es as [|e es IH]; intros s Hrun Hinv; cbn in Hrun.
  - by simplify_eq.
  - destruct (step p s e) as [s1|] eqn:Hstep; [|done].
    eapply IH; [exact Hrun|]. by eapply step_tracks.
Qed.

Lemma inFlight_key (l : list Request) id field (r : Request) :
  r ∈ List.filter (λ r,
        match r with
        | PATCH_item id' field' _ => bool_decide (id' = id ∧ field' = field)
        | _ => false
        end) l →
  getCellKey id field ∈
    omap (λ r,
      match r with
      | PATCH_item id field _ => Some (getCellKey id field)
      | _ => None
      end) l.
Proof.
  intros Hr. apply list_elem_of_In, filter_In in Hr as [Hin Hmatch].
  apply list_elem_of_omap. exists r. split; [by apply list_elem_of_In|].
  destruct r as [id' field' v| |]; try discriminate.
  by apply bool_decide_eq_true in Hmatch as [-> ->].
Qed.

Lemma inFlight_at_most_one s id field :
  NoDup (patchKeys s) → (length (inFlight id field s) ≤ 1)%nat.
Proof.
  unfold inFlight, patchKeys.
  induction (requests s) as [|r l IH]; [cbn; lia|].
  intros Hnodup. cbn [List.filter].
  destruct r as [id' field' v | item | id']; cbn in Hnodup |- *;
    try by apply IH.
  apply NoDup_cons in Hnodup as [Hfresh Hnodup].
  case_bool_decide as Hsame; [|by apply IH].
  destruct Hsame as [-> ->].
  destruct (List.filter _ l) as [|r' rest] eqn:Hrest; [cbn; lia|].
  exfalso. apply Hfresh. apply (inFlight_key l id field r').
  rewrite Hrest. apply list_elem_of_here.
Qed.

(** C3: in every state the table reaches from a freshly loaded collection,
    a cell has at most one update call in flight; while it has one, the
    table accepts neither a click on the cell's save button nor a key press
    in its input, so no second commit of the cell can start. *)
Theorem C3_one_commit_in_flight p (d : list Item) es s id field :
  run p (initial p d) es = Some s →
  (length (inFlight id field s) ≤ 1)%nat
  ∧ (inFlight id field s ≠ [] →
     isLoading s id field = true
     ∧ step p s (ClickSave id field) = None
     ∧ ∀ (k : jsstring) (shiftKey : bool),
         step p s (InputKeyDown id field k shiftKey) = None).
Proof.
  intros Hrun.
  destruct (run_tracks p _ es s Hrun (initial_tracks p d)) as [Hnodup Hiff].
  split; [by apply inFlight_at_most_one|].
  intros Hbusy.
  assert (Hloading : isLoading s id field = true).
  { apply bool_decide_eq_true, Hiff.
    destruct (inFlight id field s) as [|r rest] eqn:E; [done|].
    apply (inFlight_key (requests s) id field r).
    fold (inFlight id field s). rewrite E. apply list_elem_of_here. }
  split; [done|].
  assert (Hoff : controlsEnabled p s id field = false).
  { unfold controlsEnabled. rewrite Hloading. apply andb_false_r. }
  cbn. by rewrite Hoff.
Qed.

(** In a reachable state with no update call in flight no cell is marked
    as loading. *)
Lemma no_request_no_loading p (d : list Item) es s :
  run p (initial p d) es = Some s →
  patchKeys s = [] → loadingCells s = ∅.
Proof.
  intros Hrun Hnone.
  destruct (run_tracks p _ es s Hrun (initial_tracks p d)) as [_ Hiff].
  apply set_eq. intros k. rewrite Hiff, Hnone, elem_of_nil, elem_of_empty.
  tauto.
Qed.

End GridEventLoop.

(** ** The effect that follows a change of the collection *)
Section GridDataEffect.
Import Js Grid.

Implicit Types (p : Props) (s : State) (d : list Item).

Lemma initialValues_entries p d :
  initialValues p d = foldl assign ∅ (cellEntries p d).
Proof.
  unfold initialValues, cellEntries. generalize (∅ : gmap jsstring jsstring).
  induction d as [|item d IH]; intros acc; [done|].
  cbn [foldl mbind list_bind]. rewrite foldl_app, IH. f_equal.
  generalize acc. clear.
  induction (columns p) as [|column cols IH]; intros acc; [done|].
  cbn. apply IH.
Qed.

Lemma foldl_assign_lookup (l : list (jsstring * jsstring))
    (m : gmap jsstring jsstring) (k v : jsstring) :
  NoDup (l.*1) → (k, v) ∈ l → foldl assign m l !! k = Some v.
Proof.
  induction l as [|x l IH] using rev_ind; intros Hnodup Hin.
  - by apply elem_of_nil in Hin.
  - rewrite foldl_app. cbn. unfold assign at 1.
    rewrite fmap_app in Hnodup.
    apply NoDup_app in Hnodup as (Hl & Hdisj & _).
    apply elem_of_app in Hin as [Hin | <-%list_elem_of_singleton].
    + rewrite lookup_insert_ne; [by apply IH|].
      intros E. apply (Hdisj k).
      * apply list_elem_of_fmap. by exists (k, v).
      * rewrite <- E. apply list_elem_of_here.
    + apply lookup_insert_eq.
Qed.

Lemma cell_in_entries p d (item : Item) (column : Column) :
  item ∈ d → column ∈ columns p →
  (getCellKey (item_id item) (key column), orEmpty (fields item !! key column))
    ∈ cellEntries p d.
Proof.
  intros Hitem Hcolumn. unfold cellEntries.
  apply list_elem_of_bind. exists item. split; [|done].
  apply list_elem_of_fmap. by exists column.
Qed.

Lemma NoDup_fmap_inj_on {A B} (g : A → B) (l : list A) (x y : A) :
  NoDup (g <$> l) → x ∈ l → y ∈ l → g x = g y → x = y.
Proof.
  induction l as [|z l IH]; intros Hnodup Hx Hy E.
  - by apply elem_of_nil in Hx.
  - cbn in Hnodup. apply NoDup_cons in Hnodup as [Hz Hnodup].
    apply elem_of_cons in Hx as [-> | Hx];
      apply elem_of_cons in Hy as [-> | Hy]; [done | | | by apply IH].
    + exfalso. apply Hz. rewrite E. by apply list_elem_of_fmap_2.
    + exfalso. apply Hz. rewrite <- E. by apply list_elem_of_fmap_2.
Qed.

(** A cell key splits in one way into an id and a field without a hyphen. *)
Lemma getCellKey_inj (id1 field1 id2 field2 : jsstring) :
  0x2D ∉ field1 → 0x2D ∉ field2 →
  getCellKey id1 field1 = getCellKey id2 field2 →
  id1 = id2 ∧ field1 = field2.
Proof.
  unfold getCellKey. change (lit "-") with [0x2D]. cbn [app].
  intros H1 H2. revert id2.
  induction id1 as [|c id1 IH]; intros [|c' id2] E; cbn in E.
  - by simplify_eq.
  - simplify_eq. exfalso. apply H1, elem_of_app. right. apply list_elem_of_here.
  - simplify_eq. exfalso. apply H2, elem_of_app. right. apply list_elem_of_here.
  - injection E as -> E. by destruct (IH _ E) as [-> ->].
Qed.

(** Rows with distinct ids under columns with distinct keys that contain no
    hyphen (as "name", "price", "description" and "details") have distinct
    cell keys. *)
Lemma cellKeys_NoDup p d :
  NoDup (item_id <$> d) →
  NoDup (key <$> columns p) →
  Forall (λ column, 0x2D ∉ key column) (columns p) →
  NoDup (cellKeys p d).
Proof.
  intros Hids Hkeys Hplain. unfold cellKeys, cellEntries.
  assert (E : ∀ l : list Item,
    (l ≫= λ item, (λ column,
       (getCellKey (item_id item) (key column),
        orEmpty (fields item !! key column))) <$> columns p).*1
    = l ≫= λ item,
        (λ column, getCellKey (item_id item) (key column)) <$> columns p).
  { induction l as [|item l IH]; [done|]. cbn [mbind list_bind].
    rewrite fmap_app, IH. f_equal. by rewrite <- list_fmap_compose. }
  rewrite E. rewrite Forall_forall in Hplain.
  apply NoDup_bind; [| |by eapply NoDup_fmap_1].
  - intros item1 item2 k Hitem1 Hitem2
      (c1 & -> & Hc1)%list_elem_of_fmap (c2 & Hk & Hc2)%list_elem_of_fmap.
    apply getCellKey_inj in Hk as [Hid _]; [|by apply Hplain..].
    by apply (NoDup_fmap_inj_on item_id d).
  - intros item _. apply NoDup_fmap_2_strong; [|by eapply NoDup_fmap_1].
    intros c1 c2 Hc1 Hc2 Hk.
    apply getCellKey_inj in Hk as [_ Hk]; [|by apply Hplain..].
    by apply (NoDup_fmap_inj_on key (columns p)).
Qed.

(** C9: when the collection changes, the pending values are rebuilt from
    the new collection alone: whatever was typed before is gone, also in
    cells that are, and stay, in editing. A successful commit is such a
    change. Where no two cells share a key, each cell's pending value is
    then the value of its row. *)
Theorem C9_data_change_resets_pending p s (f : list Item → list Item) :
  let s' := setMenuItems p f s in
  cellValues s' = initialValues p (f (data s))
  ∧ editingCells s' = editingCells s
  ∧ (∀ pending,
       cellValues (setMenuItems p f (setCellValues (λ _, pending) s))
       = cellValues s')
  ∧ (∀ id field (updatedItem : Item),
       f = map (λ item, if bool_decide (item_id item = id) then updatedItem
                        else item) →
       cellValues (saveCellValue_resume p id field (Ok updatedItem) s)
       = cellValues s'
       ∧ data (saveCellValue_resume p id field (Ok updatedItem) s) = data s')
  ∧ (∀ (item : Item) (column : Column),
       NoDup (cellKeys p (f (data s))) →
       item ∈ f (data s) →
       column ∈ columns p →
       cellValues s' !! getCellKey (item_id item) (key column)
       = Some (orEmpty (fields item !! key column))).
Proof.
  intros s'.
  split; [done|]. split; [done|]. split; [done|]. split.
  - by intros id field updatedItem ->.
  - intros item column Hnodup Hitem Hcolumn.
    change (cellValues s') with (initialValues p (f (data s))).
    rewrite initialValues_entries.
    apply foldl_assign_lookup; [done|]. by apply cell_in_entries.
Qed.

End GridDataEffect.

(** ** The stream renderer *)
Section StreamFacts.
Import Js Stream.

Lemma chars_head (d : N) (rest : jsstring) :
  ∃ t tl, chars (d :: rest) = (d :: t) :: tl.
Proof.
  destruct rest as [|d' rest']; [by exists [], []|].
  destruct (isHighSurrogate d && isLowSurrogate d') eqn:E.
  - rewrite chars_pair by done. by eexists _, _.
  - rewrite chars_single by done. by eexists _, _.
Qed.

(** Cutting a string after [n] of its characters cuts no character in two:
    the characters of the cut are the first [n] characters. *)
Lemma chars_take (s : jsstring) (n : nat) :
  chars (concat (take n (chars s))) = take n (chars s).
Proof.
  revert n.
  induction s as [| c | c d rest E IH | c d rest E IH] using chars_ind;
    intros n.
  - by destruct n.
  - by destruct n as [|[|n]].
  - rewrite chars_pair by done. destruct n as [|n]; [done|].
    cbn [take concat app]. by rewrite chars_pair, IH.
  - rewrite chars_single by done. destruct n as [|n]; [done|].
    cbn [take concat app]. specialize (IH n).
    destruct n as [|n]; [done|].
    destruct (chars_head d rest) as (t & tl & Hhead).
    rewrite Hhead in IH |- *. cbn [take concat app] in IH |- *.
    by rewrite chars_single, IH.
Qed.

Lemma chars_nil_inv (s : jsstring) : chars s = [] → s = [].
Proof.
  destruct s as [|d rest]; [done|].
  destruct (chars_head d rest) as (t & tl & ->). discriminate.
Qed.

Lemma reveal_from_length (acc : jsstring) (cs : list jsstring) :
  length (reveal_from acc cs) = length cs.
Proof.
  revert acc. induction cs as [|ch cs IH]; intros acc; [done|].
  cbn. by rewrite IH.
Qed.

Lemma reveal_from_lookup (acc : jsstring) (cs : list jsstring) (i : nat) :
  (i < length cs)%nat →
  reveal_from acc cs !! i = Some (acc ++ concat (take (S i) cs)).
Proof.
  revert acc i. induction cs as [|ch cs IH]; intros acc i Hi; [cbn in Hi; lia|].
  destruct i as [|i]; cbn.
  - by rewrite app_nil_r.
  - rewrite IH by (cbn in Hi; lia). cbn. by rewrite <- app_assoc.
Qed.

Lemma streamTextByChar_lookup (text : jsstring) (delay : N) (i : nat)
    (partialText : jsstring) :
  streamTextByChar text delay !! i = Some partialText →
  (i < displayLength text)%nat
  ∧ partialText = concat (take (S i) (chars text)).
Proof.
  unfold streamTextByChar, displayLength. intros H.
  assert (Hi : (i < length (chars text))%nat).
  { apply lookup_lt_Some in H. by rewrite reveal_from_length in H. }
  rewrite reveal_from_lookup in H by done. by simplify_eq.
Qed.

Lemma surrogate_low_not_high (d : N) :
  isLowSurrogate d = true → isHighSurrogate d = false.
Proof.
  unfold isLowSurrogate, isHighSurrogate.
  intros [H1 H2]%andb_true_iff. apply N.leb_le in H1.
  apply andb_false_iff. right. apply N.leb_gt. lia.
Qed.

Lemma countFrom_prev (b : N) (s : jsstring) :
  isHighSurrogate b = false →
  Encoding.countFrom (Some b) s = Encoding.countFrom None s.
Proof. intros Hb. destruct s as [|c s]; [done|]. cbn. by rewrite Hb. Qed.

(** The splitter yields as many characters as the encoding has. *)
Lemma displayLength_displayCount (s : jsstring) :
  displayLength s = Encoding.displayCount s.
Proof.
  unfold displayLength, Encoding.displayCount.
  induction s as [| c | c d rest E IH | c d rest E IH] using chars_ind;
    [done | done | |].
  - rewrite chars_pair by done. cbn [length Encoding.countFrom].
    rewrite E. apply andb_true_iff in E as [_ Hd].
    rewrite countFrom_prev by (by apply surrogate_low_not_high).
    by rewrite IH.
  - rewrite chars_single by done. cbn [length]. rewrite IH.
    cbn [Encoding.countFrom]. by rewrite E.
Qed.

(** Every character the splitter yields is one code unit or a pair. *)
Lemma chars_isCharacter (s ch : jsstring) :
  ch ∈ chars s → Encoding.isCharacter ch = true.
Proof.
  induction s as [| c | c d rest E IH | c d rest E IH] using chars_ind.
  - by intros ?%elem_of_nil.
  - by intros ->%list_elem_of_singleton.
  - rewrite chars_pair by done.
    intros [-> | Hin]%elem_of_cons; [exact E | by apply IH].
  - rewrite chars_single by done.
    intros [-> | Hin]%elem_of_cons; [done | by apply IH].
Qed.

Lemma splitsPair_cons (c : N) (s : jsstring) (m : nat) :
  Encoding.splitsPair (c :: s) (S (S m)) = Encoding.splitsPair s (S m).
Proof. done. Qed.

(** A cut after whole characters of the splitter cuts no pair. *)
Lemma chars_take_whole (s : jsstring) (k : nat) :
  Encoding.splitsPair s (length (concat (take k (chars s)))) = false.
Proof.
  revert k.
  induction s as [| c | c d rest E IH | c d rest E IH] using chars_ind;
    intros k.
  - by destruct k.
  - by destruct k as [|[|k]].
  - rewrite chars_pair by done. destruct k as [|k]; [done|].
    cbn [take concat app length]. specialize (IH k).
    destruct (length (concat (take k (chars rest)))) as [|m].
    + apply andb_true_iff in E as [_ Hd].
      destruct rest as [|x rest']; [done|]. cbn.
      by rewrite (surrogate_low_not_high d Hd).
    + by rewrite !splitsPair_cons.
  - rewrite chars_single by done. destruct k as [|k]; [done|].
    cbn [take concat app length]. specialize (IH k).
    destruct (length (concat (take k (chars (d :: rest))))) as [|m].
    + cbn. exact E.
    + by rewrite splitsPair_cons.
Qed.

(** C7: the sequence has one element per display character of the text,
    counted on the encoding; its first element is one character, and each
    further element is the one before with one character added, a code unit
    or a whole surrogate pair; every element is a prefix of the text that
    ends where no pair is cut, the element at position [i] having [i + 1]
    characters; the last element of a non-empty text is the text; the empty
    text gives the empty sequence. *)
Theorem C7_reveal_prefixes (text : jsstring) (delay : N) :
  let out := streamTextByChar text delay in
  length out = Encoding.displayCount text
  ∧ (∀ first, out !! 0%nat = Some first → Encoding.isCharacter first = true)
  ∧ (∀ i a b, out !! i = Some a → out !! S i = Some b →
       ∃ ch, b = a ++ ch ∧ Encoding.isCharacter ch = true)
  ∧ (∀ i partialText, out !! i = Some partialText →
       partialText `prefix_of` text
       ∧ Encoding.splitsPair text (length partialText) = false
       ∧ Encoding.displayCount partialText = S i)
  ∧ (text ≠ [] → last out = Some text)
  ∧ streamTextByChar [] delay = [].
Proof.
  intros out.
  assert (Hlen : length out = length (chars text)) by apply reveal_from_length.
  split; [by rewrite Hlen; apply displayLength_displayCount|].
  split; [|split; [|split; [|split; [|done]]]].
  - intros first [Hi ->]%streamTextByChar_lookup.
    destruct (chars text) as [|ch cs] eqn:E; [cbn in Hi; unfold displayLength in Hi;
      rewrite E in Hi; cbn in Hi; lia|].
    cbn. rewrite app_nil_r. apply (chars_isCharacter text).
    rewrite E. apply list_elem_of_here.
  - intros i a b [Hi ->]%streamTextByChar_lookup
      [Hi' ->]%streamTextByChar_lookup.
    unfold displayLength in Hi'.
    destruct (lookup_lt_is_Some_2 (chars text) (S i) Hi') as [ch Hch].
    exists ch. split.
    + rewrite (take_S_r _ _ _ Hch), concat_app. cbn. by rewrite app_nil_r.
    + apply (chars_isCharacter text). by eapply list_elem_of_lookup_2.
  - intros i partialText [Hi ->]%streamTextByChar_lookup.
    unfold displayLength in Hi. split; [|split].
    + exists (concat (drop (S i) (chars text))).
      by rewrite <- concat_app, take_drop, chars_concat.
    + apply chars_take_whole.
    + rewrite <- displayLength_displayCount. unfold displayLength.
      rewrite chars_take, length_take. lia.
  - intros Hne. rewrite last_lookup. unfold out.
    assert (Hl : length (streamTextByChar text delay) = length (chars text))
      by apply reveal_from_length.
    assert (Hpos : (0 < length (chars text))%nat).
    { destruct (chars text) eqn:E; [|cbn; lia].
      by apply chars_nil_inv in E. }
    rewrite Hl.
    destruct (streamTextByChar text delay !! pred (length (chars text)))
      as [partialText|] eqn:E.
    + apply streamTextByChar_lookup in E as [_ ->].
      replace (S (pred (length (chars text)))) with (length (chars text))
        by lia.
      by rewrite firstn_all, chars_concat.
    + apply lookup_ge_None in E. lia.
Qed.

End StreamFacts.

(** ** The chat form *)
Section ChatFacts.
Import Js Stream Chat.

Implicit Types (s : State) (content : jsstring) (o : ChatOutcome)
  (currentLanguage : Locale).

Lemma sendMessage_placeholder content s s1 (assistantMessageIndex : nat) :
  sendMessage content s = (s1, Some assistantMessageIndex) →
  assistantMessageIndex = S (length (messages s))
  ∧ messages s1 = messages s ++ [mkMessage user content None None;
                                 mkMessage assistant [] None (Some true)]
  ∧ streamCalls s1 = streamCalls s.
Proof.
  unfold sendMessage. destruct (negb _); [discriminate|].
  intros [= <- <-]. cbn. rewrite length_app. cbn.
  split; [lia|]. by rewrite <- app_assoc.
Qed.

(** The [catch] branch on a state whose message at the index still exists. *)
Lemma sendMessage_catch_at currentLanguage (i : nat) s :
  (i < length (messages s))%nat →
  messages (sendMessage_catch currentLanguage i s) !! i
  = Some (mkMessage assistant (errorText currentLanguage)
            (Some false) (Some false))
  ∧ length (messages (sendMessage_catch currentLanguage i s))
    = length (messages s).
Proof.
  intros Hi. unfold sendMessage_catch. cbn.
  destruct (lookup_lt_is_Some_2 _ _ Hi) as [m Hm]. rewrite Hm.
  split; [by apply list_lookup_insert_eq | apply length_insert].
Qed.

(** C8: when the request of a sent message fails (no answer, an answer
    that is not ok, or a body that is not JSON), streamTextByChar is not
    called, the placeholder of the assistant becomes the fixed error text
    with the loading-dots and streaming flags false, and the form stops
    loading. *)
Theorem C8_failed_request_no_stream currentLanguage content o s s1
    (assistantMessageIndex : nat) :
  failed o = true →
  sendMessage content s = (s1, Some assistantMessageIndex) →
  let s2 := sendMessage_resume currentLanguage assistantMessageIndex o s1 in
  messages s1 !! assistantMessageIndex
    = Some (mkMessage assistant [] None (Some true))
  ∧ streamCalls s2 = streamCalls s
  ∧ messages s2 !! assistantMessageIndex
    = Some (mkMessage assistant (errorText currentLanguage)
              (Some false) (Some false))
  ∧ length (messages s2) = length (messages s1)
  ∧ isLoading s2 = false.
Proof.
  intros Hfailed Hsend s2.
  apply sendMessage_placeholder in Hsend as (Hindex & Hmessages & Hcalls).
  assert (Hi : (assistantMessageIndex < length (messages s1))%nat).
  { rewrite Hmessages, length_app. cbn. lia. }
  assert (Hs2 : s2 = setIsLoading false
            (sendMessage_catch currentLanguage assistantMessageIndex s1)).
  { unfold s2, sendMessage_resume. by destruct o. }
  destruct (sendMessage_catch_at currentLanguage _ s1 Hi) as [Hat Hlen].
  split.
  { rewrite Hmessages, Hindex.
    rewrite lookup_app_r by lia.
    by replace (S (length (messages s)) - length (messages s))%nat with 1%nat
      by lia. }
  rewrite Hs2. cbn. by rewrite <- Hcalls.
Qed.

End ChatFacts.

(** ** The theorems on the sample data *)
Section SampleRuns.
Import Js Grid.

Lemma C1_commit_success_witness :
  let id := lit "7d0c" in
  let field := lit "description" in
  let s2 := saveCellValue_resume Sample.props id field (Ok Sample.hours_updated)
              (answered 0 (saveCellValue Sample.props id field Sample.typing)) in
  authoritative id field s2 = Some (lit "11:00-22:00")
  ∧ isEditing s2 id field = false.
Proof.
  intros id field s2.
  destruct (C1_commit_success Sample.props Sample.typing id field
              Server.restaurant_details Sample.now Sample.rows [Sample.hours_updated; Sample.phone]
              Sample.hours_updated) as (_ & _ & Hauth & Hedit & _).
  - vm_compute. discriminate.
  - vm_compute. reflexivity.
  - vm_compute. reflexivity.
  - split; [exact Hauth | exact Hedit].
Defined.

Lemma C2_commit_blank_rejected_witness :
  let id := lit "7d0c" in
  let field := lit "description" in
  let s' := saveCellValue Sample.props id field Sample.typing_blank in
  requests s' = [] ∧ isEditing s' id field = true.
Proof.
  intros id field s'.
  destruct (C2_commit_blank_rejected Sample.props Sample.typing_blank id field)
    as (Hreq & _ & _ & _ & Hedit & _).
  - vm_compute. reflexivity.
  - split; [exact Hreq|]. apply Hedit. vm_compute. reflexivity.
Defined.

Lemma C6_cancel_restores_witness :
  let id := lit "7d0c" in
  let field := lit "description" in
  let s' := cancelEdit id field Sample.typing in
  cellValues s' !! getCellKey id field = Some (lit "11:30-21:30")
  ∧ isEditing s' id field = false.
Proof.
  intros id field s'.
  destruct (C6_cancel_restores Sample.typing id field Sample.hours)
    as (Hvalue & Hedit & _).
  - vm_compute. reflexivity.
  - split; [exact Hvalue | exact Hedit].
Defined.

Lemma C3_one_commit_in_flight_witness :
  let id := lit "7d0c" in
  let field := lit "description" in
  let s := saveCellValue Sample.props id field Sample.typing in
  run Sample.props (initial Sample.props Sample.rows) Sample.commit_answered
    = Some s
  ∧ inFlight id field s = [PATCH_item id field (lit "11:00-22:00")]
  ∧ step Sample.props s (ClickSave id field) = None.
Proof.
  intros id field s.
  assert (Hrun : run Sample.props (initial Sample.props Sample.rows)
                   Sample.commit_answered = Some s)
    by (vm_compute; reflexivity).
  destruct (C3_one_commit_in_flight Sample.props Sample.rows
              Sample.commit_answered s id field Hrun) as [_ Hrefused].
  split; [exact Hrun|].
  split; [vm_compute; reflexivity|].
  apply Hrefused. vm_compute. discriminate.
Defined.

Lemma C4_confirm_add_witness :
  requests (addNewRow Sample.props Sample.draft_no_description) = []
  ∧ data (addNewRow_resume Sample.props (Ok Sample.parking)
            (answered 0 (addNewRow Sample.props Sample.draft_complete)))
    = Sample.parking :: Sample.rows.
Proof.
  split.
  - destruct (C4_confirm_add Sample.props Sample.draft_no_description)
      as [Hmissing _].
    destruct (Hmissing (mkColumn (lit "description") (lit "Description")
                textarea (Some (lit "10:30 - 14:00 , 17:00-20:00"))))
      as (_ & Hreq & _).
    + apply list_elem_of_further, list_elem_of_here.
    + vm_compute. reflexivity.
    + exact Hreq.
  - destruct (C4_confirm_add Sample.props Sample.draft_complete)
      as [_ Hfilled].
    destruct (Hfilled) with (newItem := Sample.parking) as (_ & _ & Hdata & _).
    + intros col Hcol.
      apply elem_of_cons in Hcol as [-> | Hcol]; [vm_compute; reflexivity|].
      apply list_elem_of_singleton in Hcol as ->. vm_compute. reflexivity.
    + exact Hdata.
Defined.

Lemma C9_data_change_resets_pending_witness :
  let id := lit "7d0c" in
  let replace := map (λ item,
    if bool_decide (item_id item = lit "a41e") then Sample.phone else item) in
  isEditing (setMenuItems Sample.props replace Sample.typing)
    id (lit "description") = true
  ∧ cellValues Sample.typing !! getCellKey id (lit "description")
    = Some (lit " 11:00-22:00 ")
  ∧ cellValues (setMenuItems Sample.props replace Sample.typing)
      !! getCellKey id (lit "description")
    = Some (lit "11:30-21:30").
Proof.
  intros id replace.
  destruct (C9_data_change_resets_pending Sample.props Sample.typing replace)
    as (_ & _ & _ & _ & Hvalue).
  split; [vm_compute; reflexivity|].
  split; [vm_compute; reflexivity|].
  apply (Hvalue Sample.hours
           (mkColumn (lit "description") (lit "Description") textarea
              (Some (lit "10:30 - 14:00 , 17:00-20:00")))).
  - apply cellKeys_NoDup.
    + apply (bool_decide_unpack _). vm_compute. exact I.
    + apply (bool_decide_unpack _). vm_compute. exact I.
    + apply (bool_decide_unpack _). vm_compute. exact I.
  - vm_compute. apply list_elem_of_here.
  - apply list_elem_of_further, list_elem_of_here.
Defined.

(** The failed delete on the sample table: both rows are still there, no
    notice has been shown, and the error is an unhandled rejection. *)
Example delete_refused_run :
  run Sample.props (initial Sample.props Sample.rows) Sample.delete_refused
  = Some (unhandled (lit "Failed to delete menu item")
            (initial Sample.props Sample.rows)).
Proof. vm_compute. reflexivity. Qed.

(** The renderer on the text of the specification's scenario, cut short,
    and on a text with a character that takes two code units. *)
Example streamTextByChar_open :
  Stream.streamTextByChar (lit "Open") 15
  = [lit "O"; lit "Op"; lit "Ope"; lit "Open"].
Proof. reflexivity. Qed.

Example streamTextByChar_pair :
  Stream.streamTextByChar [0x48; 0xD83C; 0xDF5C; 0x21] 15
  = [[0x48]; [0x48; 0xD83C; 0xDF5C]; [0x48; 0xD83C; 0xDF5C; 0x21]].
Proof. reflexivity. Qed.

End SampleRuns.

Section ChatRuns.
Import Js Chat.

Lemma C8_failed_request_no_stream_witness :
  let s1 := (sendMessage (lit "hours?") idle).1 in
  let s2 := sendMessage_resume en 1 (ResponseNotOk 500 (lit "down")) s1 in
  streamCalls s2 = []
  ∧ messages s2 !! 1%nat
    = Some (mkMessage assistant
              (lit "Sorry, an error occurred. Please try again.")
              (Some false) (Some false)).
Proof.
  intros s1 s2.
  destruct (C8_failed_request_no_stream en (lit "hours?")
              (ResponseNotOk 500 (lit "down")) idle s1 1)
    as (_ & Hcalls & Hmessage & _).
  - reflexivity.
  - vm_compute. reflexivity.
  - split; [exact Hcalls | exact Hmessage].
Defined.

End ChatRuns.

(** ** More on the single operations of the grid editor *)
Section GridOutcomes.
Import Js Grid.

Implicit Types (p : Props) (s : State) (id field value : jsstring).

Lemma add_remove_fresh (X : gset jsstring) (k : jsstring) :
  k ∉ X → (X ∪ {[k]}) ∖ {[k]} = X.
Proof.
  intros Hk. apply set_eq. intros x.
  rewrite elem_of_difference, elem_of_union, elem_of_singleton.
  split; [tauto|]. intros Hx. split; [tauto|]. by intros ->.
Qed.

Lemma State_eq s1 s2 :
  data s1 = data s2 → editingCells s1 = editingCells s2 →
  cellValues s1 = cellValues s2 → newRow s1 = newRow s2 →
  isAddingRow s1 = isAddingRow s2 → loadingCells s1 = loadingCells s2 →
  toasts s1 = toasts s2 → requests s1 = requests s2 →
  unhandledRejections s1 = unhandledRejections s2 → s1 = s2.
Proof. destruct s1, s2. cbn. by intros -> -> -> -> -> -> -> -> ->. Qed.

Lemma controlsEnabled_inv p s id field :
  controlsEnabled p s id field = true →
  hasRow id s = true ∧ hasColumn p field = true
  ∧ getCellKey id field ∈ editingCells s
  ∧ getCellKey id field ∉ loadingCells s.
Proof.
  unfold controlsEnabled, isEditing, isLoading.
  rewrite !andb_true_iff, negb_true_iff, bool_decide_eq_true,
    bool_decide_eq_false. tauto.
Qed.

Lemma saveCellValue_sends p s id field :
  forallb isWhiteSpace (orEmpty (cellValues s !! getCellKey id field)) = false →
  saveCellValue p id field s
  = updateMenuItem id field
      (trim (orEmpty (cellValues s !! getCellKey id field)))
      (setLoadingCells (λ prev, prev ∪ {[getCellKey id field]}) s).
Proof. intros H. unfold saveCellValue. by rewrite truthy_trim, H. Qed.

(** A commit whose update is refused or never answered leaves the table as
    it was before the save was clicked, the failure notice apart: the cell
    is still in editing with the text as typed. *)
Theorem failed_commit_restores p s id field (response : FetchResult Item) :
  controlsEnabled p s id field = true →
  forallb isWhiteSpace (orEmpty (cellValues s !! getCellKey id field)) = false →
  (∀ updatedItem, response ≠ Ok updatedItem) →
  run p s [ClickSave id field; Answer (length (requests s)) response]
  = Some (toast (toast_updateFailed p) s).
Proof.
  intros Hon Hvalue Hfailed.
  destruct (controlsEnabled_inv p s id field Hon) as (_ & _ & _ & Hidle).
  cbn [run step]. rewrite Hon, saveCellValue_sends by done.
  cbn [run step updateMenuItem fetch requests setLoadingCells].
  rewrite list_lookup_middle by done.
  f_equal.
  destruct response as [updatedItem| |]; [by destruct (Hfailed updatedItem)| |];
    (apply State_eq; try reflexivity;
     [ by apply add_remove_fresh
     | cbn; by rewrite delete_middle, app_nil_r ]).
Qed.

Lemma findItem_replace_other id id' (d : list Item) (updatedItem : Item) :
  item_id updatedItem = id → id' ≠ id →
  findItem id'
    (map (λ item, if bool_decide (item_id item = id) then updatedItem else item) d)
  = findItem id' d.
Proof.
  intros Hid Hne. unfold findItem.
  induction d as [|item d IH]; [done|]. cbn [map List.find].
  destruct (decide (item_id item = id)) as [E|E].
  - rewrite (bool_decide_eq_true_2 _ E).
    rewrite !bool_decide_eq_false_2 by congruence. apply IH.
  - rewrite (bool_decide_eq_false_2 _ E). by rewrite IH.
Qed.

Lemma ids_replace id (d : list Item) (updatedItem : Item) :
  item_id updatedItem = id →
  item_id <$>
    map (λ item, if bool_decide (item_id item = id) then updatedItem else item) d
  = item_id <$> d.
Proof.
  intros Hid. induction d as [|item d IH]; [done|].
  cbn. rewrite IH. f_equal. case_bool_decide; congruence.
Qed.

(** A successful commit replaces the rows of the committed id and nothing
    else: the ids of the collection stay as they were, in their order, and
    the row found for any other id is the one found before. *)
Theorem commit_keeps_other_rows p s id field (updatedItem : Item) :
  item_id updatedItem = id →
  let s' := saveCellValue_resume p id field (Ok updatedItem) s in
  item_id <$> data s' = item_id <$> data s
  ∧ ∀ id', id' ≠ id →
      findItem id' (data s') = findItem id' (data s)
      ∧ ∀ field', authoritative id' field' s' = authoritative id' field' s.
Proof.
  intros Hid s'.
  assert (Hdata : data s' = map (λ item,
            if bool_decide (item_id item = id) then updatedItem else item)
            (data s)) by done.
  split; [by rewrite Hdata, ids_replace|].
  intros id' Hne.
  assert (Hfind : findItem id' (data s') = findItem id' (data s))
    by (by rewrite Hdata, findItem_replace_other).
  split; [done|]. intros field'. unfold authoritative. by rewrite Hfind.
Qed.

(** The answer to an update of a row that has meanwhile left the collection
    brings nothing back: the collection stays as it is, whatever the
    answer; the cell's marks are cleared all the same. *)
Theorem late_answer_keeps_row_deleted p s id field (response : FetchResult Item) :
  hasRow id s = false →
  let s' := saveCellValue_resume p id field response s in
  data s' = data s ∧ isLoading s' id field = false.
Proof.
  intros Hgone s'. split.
  - unfold s', saveCellValue_resume. destruct response as [u| |]; try done.
    cbn. unfold hasRow in Hgone.
    induction (data s) as [|item d IH]; [done|].
    cbn in Hgone |- *. apply orb_false_iff in Hgone as [E Hgone].
    by rewrite E, IH.
  - unfold s', isLoading. rewrite saveCellValue_resume_loading.
    apply bool_decide_eq_false, not_elem_of_remove.
Qed.

Lemma missingFields_nil p s :
  missingFields p s = [] ↔
  ∀ col, col ∈ columns p →
    forallb isWhiteSpace (orEmpty (newRow s !! key col)) = false.
Proof.
  unfold missingFields. split.
  - intros Hnone col Hcol.
    destruct (forallb _ _) eqn:E; [|done].
    assert (Hin : In col (List.filter
      (λ col, negb (truthy (trim (orEmpty (newRow s !! key col)))))
      (columns p))).
    { apply filter_In. split; [by apply list_elem_of_In|].
      by rewrite truthy_trim, E. }
    by rewrite Hnone in Hin.
  - intros Hfilled.
    induction (columns p) as [|col cols IH]; [done|]. cbn [List.filter].
    rewrite truthy_trim, Hfilled by apply list_elem_of_here.
    cbn. apply IH. intros c Hc. apply Hfilled. by apply list_elem_of_further.
Qed.

(** An add that is refused or never answered leaves the table as it was
    before the confirm was clicked, the failure notice apart: the draft row
    is still open with its fields as typed. *)
Theorem failed_add_keeps_draft p s (response : FetchResult Item) :
  isAddingRow s = true →
  (∀ col, col ∈ columns p →
     forallb isWhiteSpace (orEmpty (newRow s !! key col)) = false) →
  (∀ newItem, response ≠ Ok newItem) →
  run p s [ClickConfirmAdd; Answer (length (requests s)) response]
  = Some (toast (toast_addFailed p) s).
Proof.
  intros Hadding Hfilled%missingFields_nil Hfailed.
  cbn [run step]. rewrite Hadding. unfold addNewRow. rewrite Hfilled.
  cbn [length Nat.ltb Nat.leb run step addMenuItem fetch requests].
  rewrite list_lookup_middle by done.
  f_equal.
  destruct response as [newItem| |]; [by destruct (Hfailed newItem)| |];
    (apply State_eq; try reflexivity;
     cbn; by rewrite delete_middle, app_nil_r).
Qed.

(** The confirm button of the draft row is not held back while an add is
    in flight: clicked twice, it sends the same draft twice. *)
Theorem double_confirm_posts_twice p s :
  isAddingRow s = true →
  (∀ col, col ∈ columns p →
     forallb isWhiteSpace (orEmpty (newRow s !! key col)) = false) →
  ∃ s', run p s [ClickConfirmAdd; ClickConfirmAdd] = Some s'
        ∧ requests s' = requests s ++ [POST_item (newRow s); POST_item (newRow s)].
Proof.
  intros Hadding Hfilled%missingFields_nil.
  exists (addMenuItem (newRow s) (addMenuItem (newRow s) s)). split.
  - assert (Hsends : ∀ s0, missingFields p s0 = [] →
              addNewRow p s0 = addMenuItem (newRow s0) s0).
    { intros s0 H0. unfold addNewRow. by rewrite H0. }
    cbn [run step]. rewrite Hadding, Hsends by done.
    change (isAddingRow (addMenuItem (newRow s) s)) with (isAddingRow s).
    rewrite Hadding. by rewrite Hsends.
  - cbn. by rewrite <- app_assoc.
Qed.

(** On the keyboard: Enter without Shift in the input of a cell does what
    the save button does, Escape what the cancel button does, and Enter
    with Shift changes nothing. *)
Lemma keyboard_commits_and_cancels p s id field :
  step p s (InputKeyDown id field (lit "Enter") false)
    = step p s (ClickSave id field)
  ∧ (∀ shiftKey, step p s (InputKeyDown id field (lit "Escape") shiftKey)
       = step p s (ClickCancel id field))
  ∧ (controlsEnabled p s id field = true →
     step p s (InputKeyDown id field (lit "Enter") true) = Some s).
Proof.
  split; [|split].
  - cbn. by destruct (controlsEnabled p s id field).
  - intros shiftKey. cbn. destruct (controlsEnabled p s id field); [|done].
    by destruct shiftKey.
  - intros Hon. cbn. by rewrite Hon.
Qed.

End GridOutcomes.

(** ** What every reachable state of the grid editor satisfies *)
Section GridReachable.
Import Js Grid Checks.

Implicit Types (p : Props) (s : State) (id field value : jsstring)
  (e : Event) (es : list Event).

Lemma run_app p s es1 es2 :
  run p s (es1 ++ es2) = run p s es1 ≫= λ s', run p s' es2.
Proof.
  revert s. induction es1 as [|e es1 IH]; intros s; [done|].
  cbn. destruct (step p s e); [apply IH | done].
Qed.

(** Typing into the draft changes the draft and nothing else. *)
Lemma run_typeDraft p s (edits : list (jsstring * jsstring)) :
  isAddingRow s = true →
  Forall (λ edit, hasColumn p edit.1 = true) edits →
  ∃ draft, run p s (typeDraft edits) = Some (setNewRow (λ _, draft) s).
Proof.
  revert s. induction edits as [|[f v] edits IH]; intros s Hadding Hcols.
  - exists (newRow s). cbn. by destruct s.
  - apply Forall_cons in Hcols as [Hcol Hcols]. cbn in Hcol.
    cbn [typeDraft fmap list_fmap run step fst snd]. rewrite Hadding, Hcol.
    cbn [andb].
    destruct (IH (handleNewRowChange f v s)) as [draft Hrun]; [done..|].
    exists draft. unfold typeDraft in Hrun. by rewrite Hrun.
Qed.

(** Opening the draft row, typing into its fields and cancelling gives back
    the table as it was: nothing of the draft is kept and nothing is sent. *)
Theorem cancelled_draft_leaves_no_trace p s
    (edits : list (jsstring * jsstring)) :
  isAddingRow s = false →
  newRow s = ∅ →
  Forall (λ edit, hasColumn p edit.1 = true) edits →
  run p s (ClickAdd :: typeDraft edits ++ [ClickCancelAdd]) = Some s.
Proof.
  intros Hclosed Hempty Hcols.
  cbn [run step]. rewrite Hclosed.
  destruct (run_typeDraft p (setIsAddingRow true s) edits) as [draft Hrun];
    [done..|].
  rewrite run_app, Hrun. cbn. f_equal.
  apply State_eq; done.
Qed.

Lemma trimStart_fixed (s : jsstring) : trimStart (trimStart s) = trimStart s.
Proof.
  destruct (trimStart_app_nonws s) as [-> | (c & t & -> & Hc)]; [done|].
  cbn. by rewrite Hc.
Qed.

Lemma trimEnd_fixed (s : jsstring) : trimEnd (trimEnd s) = trimEnd s.
Proof. unfold trimEnd. by rewrite rev_involutive, trimStart_fixed. Qed.

(** Dropping white space at the start of a reversed string leaves the
    string's own start in place. *)
Lemma trimStart_suffix (s : jsstring) : ∃ ws, s = ws ++ trimStart s.
Proof.
  induction s as [|c s [ws IH]]; [by exists []|]. cbn.
  destruct (isWhiteSpace c); [|by exists []].
  exists (c :: ws). cbn. by rewrite <- IH.
Qed.

Lemma trimStart_trimEnd (s : jsstring) :
  trimStart s = s → trimStart (trimEnd s) = trimEnd s.
Proof.
  intros Hs. unfold trimEnd.
  destruct (trimStart_suffix (rev s)) as [ws Hws].
  apply (f_equal (@rev N)) in Hws. rewrite rev_involutive, rev_app_distr in Hws.
  destruct (rev (trimStart (rev s))) as [|c t] eqn:E; [done|].
  rewrite Hws in Hs. cbn in Hs |- *.
  destruct (isWhiteSpace c) eqn:Hc; [|done].
  exfalso.
  destruct (trimStart_app_nonws (t ++ rev ws)) as [Hnil | (c' & t' & Ht & Hc')].
  - rewrite Hnil in Hs. discriminate.
  - rewrite Ht in Hs. injection Hs as -> _. congruence.
Qed.

(** Trimming twice is trimming once. *)
Lemma trim_fixed (s : jsstring) : trim (trim s) = trim s.
Proof.
  unfold trim.
  rewrite (trimStart_trimEnd (trimStart s)) by apply trimStart_fixed.
  apply trimEnd_fixed.
Qed.

Lemma initial_checks p (d : list Item) : checks p (initial p d).
Proof.
  split; [|split].
  - unfold saving_within_editing. cbn. apply empty_subseteq.
  - apply Forall_nil_2.
  - by intros _.
Qed.

Lemma saveCellValue_checks p s id field :
  controlsEnabled p s id field = true →
  checks p s → checks p (saveCellValue p id field s).
Proof.
  intros Hon (Hsaving & Hreqs & Hdraft).
  destruct (controlsEnabled_inv p s id field Hon) as (_ & _ & Hediting & _).
  unfold saveCellValue.
  destruct (truthy (trim _)) eqn:Hvalue; cbn [negb]; [|done].
  split; [|split; [|done]].
  - unfold saving_within_editing in *. cbn.
    apply union_subseteq. split; [done|]. by apply singleton_subseteq_l.
  - cbn. apply Forall_app. split; [done|]. apply Forall_singleton. cbn.
    split; [|apply trim_fixed]. intros E. by rewrite E in Hvalue.
Qed.

Lemma cancelEdit_checks p s id field :
  controlsEnabled p s id field = true →
  checks p s → checks p (cancelEdit id field s).
Proof.
  intros Hon (Hsaving & Hreqs & Hdraft).
  destruct (controlsEnabled_inv p s id field Hon) as (_ & _ & _ & Hidle).
  assert (Hframe : loadingCells (cancelEdit id field s) = loadingCells s
    ∧ editingCells (cancelEdit id field s)
      = editingCells s ∖ {[getCellKey id field]}
    ∧ requests (cancelEdit id field s) = requests s
    ∧ newRow (cancelEdit id field s) = newRow s
    ∧ isAddingRow (cancelEdit id field s) = isAddingRow s).
  { unfold cancelEdit. by destruct (findItem id (data s)). }
  destruct Hframe as (Hl & He & Hr & Hn & Ha).
  split; [|split].
  - unfold saving_within_editing in *. rewrite Hl, He.
    intros k Hk. apply elem_of_difference. split; [by apply Hsaving|].
    rewrite elem_of_singleton. by intros ->.
  - by rewrite Hr.
  - unfold draft_only_while_adding. by rewrite Hn, Ha.
Qed.

Lemma saveCellValue_resume_checks p s id field (response : FetchResult Item) :
  checks p s → checks p (saveCellValue_resume p id field response s).
Proof.
  intros (Hsaving & Hreqs & Hdraft).
  assert (Hframe :
    (editingCells (saveCellValue_resume p id field response s)
       = editingCells s ∖ {[getCellKey id field]}
     ∨ editingCells (saveCellValue_resume p id field response s)
       = editingCells s)
    ∧ newRow (saveCellValue_resume p id field response s) = newRow s
    ∧ isAddingRow (saveCellValue_resume p id field response s) = isAddingRow s).
  { unfold saveCellValue_resume. destruct response; cbn; auto. }
  destruct Hframe as (He & Hn & Ha).
  split; [|split].
  - unfold saving_within_editing in *.
    rewrite saveCellValue_resume_loading.
    intros k [Hk Hne]%elem_of_difference.
    destruct He as [-> | ->]; [|by apply Hsaving].
    apply elem_of_difference. split; [by apply Hsaving | done].
  - by rewrite saveCellValue_resume_requests.
  - unfold draft_only_while_adding. by rewrite Hn, Ha.
Qed.

Lemma addNewRow_checks p s :
  isAddingRow s = true → checks p s → checks p (addNewRow p s).
Proof.
  intros Hadding (Hsaving & Hreqs & Hdraft). unfold addNewRow.
  destruct (missingFields p s) as [|col cols] eqn:Hmissing; cbn; [|done].
  split; [done|]. split; [|done].
  cbn. apply Forall_app. split; [done|]. apply Forall_singleton. cbn.
  by apply missingFields_nil.
Qed.

Lemma addNewRow_resume_checks p s (response : FetchResult Item) :
  checks p s → checks p (addNewRow_resume p response s).
Proof.
  intros (Hsaving & Hreqs & Hdraft).
  unfold addNewRow_resume. destruct response; cbn; (split; [|split]); try done.
Qed.

Lemma onDelete_resume_checks p s id (response : FetchResult unit) :
  checks p s → checks p (onDelete_resume p id response s).
Proof.
  intros (Hsaving & Hreqs & Hdraft).
  unfold onDelete_resume. by destruct response.
Qed.

Lemma answered_checks p s (n : nat) : checks p s → checks p (answered n s).
Proof.
  intros (Hsaving & Hreqs & Hdraft). split; [done|]. split; [|done].
  cbn. by apply Forall_delete.
Qed.

Lemma step_checks p s e s' :
  step p s e = Some s' → checks p s → checks p s'.
Proof.
  intros Hstep Hinv. destruct e; cbn in Hstep.
  - destruct (cellClickable _ _ _ _); simplify_eq.
    destruct Hinv as (Hsaving & Hreqs & Hdraft). split; [|done].
    unfold saving_within_editing in *. cbn.
    by apply union_subseteq_l'.
  - destruct (controlsEnabled _ _ _ _); by simplify_eq.
  - destruct (controlsEnabled _ _ _ _) eqn:E; simplify_eq.
    unfold handleKeyDown. destruct (_ && _); [by apply saveCellValue_checks|].
    destruct (bool_decide _); [by apply cancelEdit_checks | done].
  - destruct (controlsEnabled _ _ _ _) eqn:E; simplify_eq.
    by apply saveCellValue_checks.
  - destruct (controlsEnabled _ _ _ _) eqn:E; simplify_eq.
    by apply cancelEdit_checks.
  - destruct (isAddingRow s) eqn:E; simplify_eq.
    destruct Hinv as (Hsaving & Hreqs & Hdraft). by split; [|split].
  - destruct (isAddingRow s) eqn:E; [|done].
    destruct (hasColumn p field); cbn in Hstep; simplify_eq.
    destruct Hinv as (Hsaving & Hreqs & Hdraft). split; [exact Hsaving|].
    split; [exact Hreqs|]. unfold draft_only_while_adding. cbn. congruence.
  - destruct (isAddingRow s) eqn:E; simplify_eq. by apply addNewRow_checks.
  - destruct (isAddingRow s) eqn:E; simplify_eq.
    destruct Hinv as (Hsaving & Hreqs & Hdraft). by split; [|split].
  - destruct (hasRow _ _); simplify_eq.
    destruct Hinv as (Hsaving & Hreqs & Hdraft). split; [done|].
    split; [|done]. cbn. apply Forall_app. split; [done|].
    by apply Forall_singleton.
  - destruct (requests s !! n) as [[id field v | item | id]|]; simplify_eq.
    + by apply saveCellValue_resume_checks, answered_checks.
    + by apply addNewRow_resume_checks, answered_checks.
  - destruct (requests s !! n) as [[id field v | item | id]|]; simplify_eq.
    by apply onDelete_resume_checks, answered_checks.
Qed.

Lemma run_checks p s es s' :
  run p s es = Some s' → checks p s → checks p s'.
Proof.
  revert s. induction es as [|e es IH]; intros s Hrun Hinv; cbn in Hrun.
  - by simplify_eq.
  - destruct (step p s e) as [s1|] eqn:Hstep; [|done].
    eapply IH; [exact Hrun|]. by eapply step_checks.
Qed.

(** A cell marked as loading is always a cell in editing: the mark is set
    by a commit, which only an edited cell offers, and while it is set the
    cell cannot be cancelled. *)
Theorem loading_cells_are_editing p (d : list Item) es s id field :
  run p (initial p d) es = Some s →
  isLoading s id field = true → isEditing s id field = true.
Proof.
  intros Hrun Hloading%bool_decide_eq_true.
  destruct (run_checks p _ es s Hrun (initial_checks p d)) as (Hsaving & _).
  apply bool_decide_eq_true. by apply Hsaving.
Qed.

(** No update the table sends carries an empty value or a value with white
    space at either end. *)
Theorem updates_carry_trimmed_values p (d : list Item) es s id field value :
  run p (initial p d) es = Some s →
  PATCH_item id field value ∈ requests s →
  value ≠ [] ∧ trim value = value.
Proof.
  intros Hrun Hin.
  destruct (run_checks p _ es s Hrun (initial_checks p d)) as (_ & Hreqs & _).
  rewrite Forall_forall in Hreqs. exact (Hreqs _ Hin).
Qed.

(** No row the table asks to create has a blank field among the columns
    of the schema. *)
Theorem created_rows_are_complete p (d : list Item) es s
    (item : gmap jsstring jsstring) (col : Column) :
  run p (initial p d) es = Some s →
  POST_item item ∈ requests s →
  col ∈ columns p →
  forallb isWhiteSpace (orEmpty (item !! key col)) = false.
Proof.
  intros Hrun Hin Hcol.
  destruct (run_checks p _ es s Hrun (initial_checks p d)) as (_ & Hreqs & _).
  rewrite Forall_forall in Hreqs. exact (Hreqs _ Hin col Hcol).
Qed.

(** The draft holds text only while the draft row is open. *)
Theorem draft_is_empty_when_closed p (d : list Item) es s :
  run p (initial p d) es = Some s →
  isAddingRow s = false → newRow s = ∅.
Proof.
  intros Hrun.
  by destruct (run_checks p _ es s Hrun (initial_checks p d)) as (_ & _ & H).
Qed.

End GridReachable.

(** ** The routes *)
Section RouteFacts.
Import Js Grid Server Routes.

Implicit Types (t : Table) (db : list Item) (id field now : jsstring).

(** The rows the update leaves alone. *)
Lemma update_eq_single_frame now db id field value (db' : list Item)
    (row : Item) :
  update_eq_single now db id field value = (db', Some row) →
  db' = map (λ r, if bool_decide (item_id r = id)
                  then updateRow now field value r else r) db
  ∧ item_id <$> db' = item_id <$> db.
Proof.
  unfold update_eq_single.
  destruct (filter _ _) as [|r [|r' rest]]; intros [= <- <-]. split; [done|].
  induction db as [|r0 db IH]; [done|]. cbn. rewrite IH. f_equal.
  by case_bool_decide.
Qed.







(** An ok answer of PATCH changes one row, and of it only the field and
    the time of the last update: the ids of the table stay as they are, in
    their order, every row of another id is untouched, and the answered
    row agrees with the old one on every other field. *)
Theorem PATCH_changes_one_field t now db id field value (db' : list Item)
    (row : Item) :
  PATCH t now db id field (Some value) = (db', Ok row) →
  item_id <$> db' = item_id <$> db
  ∧ (∀ r, r ∈ db → item_id r ≠ id → r ∈ db')
  ∧ ∃ old, old ∈ db ∧ item_id old = id
      ∧ fields row !! lit "updated_at" = Some now
      ∧ ∀ k, k ≠ field → k ≠ lit "updated_at" →
          fields row !! k = fields old !! k.
Proof.
  intros Hpatch.
  destruct (PATCH_ok_row _ _ _ _ _ _ _ _ Hpatch)
    as (_ & _ & _ & old & Hold & Hid & ->).
  unfold PATCH in Hpatch.
  destruct (negb (truthy id) || negb (truthy field)); [discriminate|].
  destruct (negb (bool_decide _)); [discriminate|].
  destruct (update_eq_single now db id field value) as [db1 [r|]] eqn:Hu;
    [|discriminate].
  injection Hpatch as -> ->.
  destruct (update_eq_single_frame _ _ _ _ _ _ _ Hu) as [Hdb' Hids].
  split; [done|]. split.
  - intros r Hr Hne. rewrite Hdb'. apply list_elem_of_fmap. exists r.
    split; [|done]. by rewrite bool_decide_eq_false_2.
  - exists old. split; [done|]. split; [done|]. cbn. split.
    + apply lookup_insert_eq.
    + intros k Hk1 Hk2. by rewrite !lookup_insert_ne.
Qed.

Lemma picked_lookup t (body : gmap jsstring jsstring) (k : jsstring) :
  picked t body !! k
  = if bool_decide (k ∈ postFields t) then Some (orEmpty (body !! k)) else None.
Proof.
  unfold picked. induction (postFields t) as [|f fs IH]; [done|].
  cbn [foldr]. destruct (decide (k = f)) as [->|Hne].
  - rewrite lookup_insert_eq, bool_decide_eq_true_2; [done|].
    apply list_elem_of_here.
  - rewrite lookup_insert_ne, IH by done.
    destruct (decide (k ∈ fs)) as [Hin|Hout].
    + rewrite !bool_decide_eq_true_2; [done | | done].
      by apply list_elem_of_further.
    + rewrite !bool_decide_eq_false_2; [done | | done].
      rewrite elem_of_cons. tauto.
Qed.

Lemma postFields_not_stamps t (k : jsstring) :
  k ∈ postFields t → k ≠ lit "created_at" ∧ k ≠ lit "updated_at".
Proof.
  destruct t; cbn; rewrite !elem_of_cons, elem_of_nil;
    intros H; repeat destruct H as [H|H]; by subst.
Qed.

Lemma insertedRow_named t (newId now : jsstring)
    (body : gmap jsstring jsstring) (f : jsstring) :
  f ∈ postFields t →
  fields (insertedRow t newId now body) !! f = Some (orEmpty (body !! f)).
Proof.
  intros Hf. destruct (postFields_not_stamps t f Hf) as [H1 H2].
  cbn [insertedRow fields].
  by rewrite !lookup_insert_ne, picked_lookup, bool_decide_eq_true_2.
Qed.

(** POST refuses a body in which one of its fields is absent or empty with
    400 and stores nothing. *)
Theorem POST_refuses_missing_field t (newId now : jsstring) db
    (body : gmap jsstring jsstring) (f : jsstring) :
  f ∈ postFields t →
  orEmpty (body !! f) = [] →
  POST t newId now db body = (db, NotOk 400).
Proof.
  intros Hf Hempty. unfold POST.
  assert (H : existsb (missingField body) (postFields t) = true).
  { apply existsb_exists. exists f. split; [by apply list_elem_of_In|].
    unfold missingField. by rewrite Hempty. }
  by rewrite H.
Qed.

(** A row POST stores has the id the store drew, the fields of the body
    that the route names, with the values of the body, and the two time
    stamps: no other key of the body gets into the table. The rows that
    were there stay, and the ids stay distinct. *)
Theorem POST_stores_named_fields t (newId now : jsstring) db (db' : list Item)
    (body : gmap jsstring jsstring) (row : Item) :
  POST t newId now db body = (db', Ok row) →
  db' = db ++ [row]
  ∧ item_id row = newId
  ∧ (newId ∉ item_id <$> db)
  ∧ (NoDup (item_id <$> db) → NoDup (item_id <$> db'))
  ∧ (∀ k, k ∈ postFields t →
       fields row !! k = body !! k ∧ fields row !! k ≠ Some [])
  ∧ (∀ k, k ∉ postFields t → k ≠ lit "created_at" → k ≠ lit "updated_at" →
       fields row !! k = None)
  ∧ fields row !! lit "created_at" = Some now
  ∧ fields row !! lit "updated_at" = Some now.
Proof.
  unfold POST.
  destruct (existsb _ _) eqn:Hmissing; [discriminate|].
  destruct (bool_decide _) eqn:Hfresh; [discriminate|].
  apply bool_decide_eq_false in Hfresh.
  intros [= <- <-].
  split; [done|]. split; [done|]. split; [done|]. split.
  { intros Hnodup. rewrite fmap_app. apply NoDup_app.
    split; [done|]. split; [|apply NoDup_singleton].
    intros x Hx ->%list_elem_of_singleton. done. }
  cbn [insertedRow fields]. split; [|split; [|split]].
  - intros k Hk. destruct (postFields_not_stamps t k Hk) as [H1 H2].
    rewrite !lookup_insert_ne, picked_lookup, bool_decide_eq_true_2 by done.
    assert (Hpresent : missingField body k = false).
    { destruct (missingField body k) eqn:E; [|done].
      assert (existsb (missingField body) (postFields t) = true); [|congruence].
      apply existsb_exists. exists k. split; [by apply list_elem_of_In | done]. }
    unfold missingField in Hpresent.
    destruct (body !! k) as [v|]; cbn in Hpresent |- *; [|done].
    split; [done|]. intros [= ->]. done.
  - intros k Hk H1 H2.
    by rewrite !lookup_insert_ne, picked_lookup, bool_decide_eq_false_2.
  - apply lookup_insert_eq.
  - rewrite lookup_insert_ne by done. apply lookup_insert_eq.
Qed.

Lemma DELETE_ok (uuid : jsstring → bool) db id :
  id ≠ [] → uuid id = true →
  DELETE uuid db (Some id) = (filter (λ row, item_id row ≠ id) db, Ok ()).
Proof.
  intros Hid Huuid. unfold DELETE. destruct id; [done|].
  cbn [truthy negb]. by rewrite Huuid.
Qed.


Lemma findItem_filter_gone db id :
  findItem id (filter (λ row, item_id row ≠ id) db) = None.
Proof.
  rewrite findItem_head.
  destruct (filter (λ item, item_id item = id) _) as [|r rest] eqn:Hf; [done|].
  assert (Hr : r ∈ filter (λ item, item_id item = id)
                 (filter (λ row, item_id row ≠ id) db))
    by (rewrite Hf; apply list_elem_of_here).
  apply list_elem_of_filter in Hr as [Hr1 Hr2].
  apply list_elem_of_filter in Hr2 as [Hr2 _]. done.
Qed.


End RouteFacts.

(** ** The grid editor against the routes *)
Section GridWithRoutes.
Import Js Grid Server Routes.

Implicit Types (p : Props) (s : State) (id field : jsstring) (db : list Item).

Lemma findItem_filter_other id id' (d : list Item) :
  id' ≠ id →
  findItem id' (filter (λ item, item_id item ≠ id) d) = findItem id' d.
Proof.
  intros Hne. unfold findItem.
  induction d as [|item d IH]; [done|]. rewrite filter_cons.
  destruct (decide (item_id item ≠ id)) as [E|E]; cbn [List.find].
  - by rewrite IH.
  - rewrite IH. rewrite bool_decide_eq_false_2; [done|].
    intros E'. apply E. congruence.
Qed.

Lemma hasRow_filter id (d : list Item) :
  existsb (λ item, bool_decide (item_id item = id))
    (filter (λ item, item_id item ≠ id) d) = false.
Proof.
  induction d as [|item d IH]; [done|]. rewrite filter_cons.
  destruct (decide (item_id item ≠ id)) as [E|E]; [|done].
  cbn. by rewrite IH, bool_decide_eq_false_2.
Qed.

(** A click on the delete button of a row, answered by the DELETE route:
    the route answers ok, and afterwards neither the table nor the
    collection has a row of that id, every other row of the collection is
    still found, and no notice has been shown. *)
Theorem delete_confirmed_removes_row p s (uuid : jsstring → bool) db id :
  hasRow id s = true →
  id ≠ [] →
  uuid id = true →
  let answer := DELETE uuid db (Some id) in
  ∃ s', run p s [ClickDelete id; AnswerDelete (length (requests s)) answer.2]
        = Some s'
    ∧ hasRow id s' = false
    ∧ findItem id answer.1 = None
    ∧ (∀ id', id' ≠ id → findItem id' (data s') = findItem id' (data s))
    ∧ toasts s' = toasts s
    ∧ requests s' = requests s.
Proof.
  intros Hrow Hid Huuid answer.
  unfold answer. rewrite DELETE_ok by done. cbn [fst snd].
  pose proof (findItem_filter_gone db id) as Hgone.
  eexists. split.
  - cbn [run step]. rewrite Hrow.
    cbn [run step onDelete_click deleteMenuItem fetch requests].
    by rewrite list_lookup_middle.
  - cbn. split; [apply hasRow_filter|]. split; [exact Hgone|].
    split; [by intros id' Hne; apply findItem_filter_other|].
    split; [done|]. by rewrite delete_middle, app_nil_r.
Qed.

Lemma hasColumn_key p (f : jsstring) :
  hasColumn p f = true → ∃ col, col ∈ columns p ∧ key col = f.
Proof.
  unfold hasColumn. intros (col & Hin & Hkey)%existsb_exists.
  exists col. split; [by apply list_elem_of_In|].
  by apply bool_decide_eq_true in Hkey.
Qed.

(** A draft that passes the check of the table passes the check of the
    POST route, when the schema has a column for every field the route
    names. With a fresh id the route stores the row with the values as they
    were typed, and the table puts that row first and closes the draft. *)
Theorem confirmed_draft_is_stored p s (t : Table) (newId now : jsstring) db :
  isAddingRow s = true →
  (∀ col, col ∈ columns p →
     forallb isWhiteSpace (orEmpty (newRow s !! key col)) = false) →
  (∀ f, f ∈ postFields t → hasColumn p f = true) →
  newId ∉ item_id <$> db →
  let row := insertedRow t newId now (newRow s) in
  POST t newId now db (newRow s) = (db ++ [row], Ok row)
  ∧ (∀ f, f ∈ postFields t → fields row !! f = newRow s !! f)
  ∧ ∃ s', run p s [ClickConfirmAdd; Answer (length (requests s)) (Ok row)]
          = Some s'
      ∧ data s' = row :: data s
      ∧ newRow s' = ∅
      ∧ isAddingRow s' = false
      ∧ requests s' = requests s.
Proof.
  intros Hadding Hfilled Hcolumns Hfresh row.
  assert (Hpost : POST t newId now db (newRow s) = (db ++ [row], Ok row)).
  { unfold POST.
    assert (Hnone : existsb (missingField (newRow s)) (postFields t) = false).
    { apply not_true_is_false. intros (f & Hf & Hmiss)%existsb_exists.
      apply list_elem_of_In in Hf.
      destruct (hasColumn_key p f (Hcolumns f Hf)) as (col & Hcol & <-).
      specialize (Hfilled col Hcol). unfold missingField in Hmiss.
      destruct (orEmpty (newRow s !! key col)); [discriminate Hfilled|].
      discriminate Hmiss. }
    rewrite Hnone. by rewrite bool_decide_eq_false_2. }
  split; [exact Hpost|]. split.
  - intros f Hf. unfold row. rewrite insertedRow_named by done.
    destruct (hasColumn_key p f (Hcolumns f Hf)) as (col & Hcol & <-).
    specialize (Hfilled col Hcol).
    by destruct (newRow s !! key col).
  - apply missingFields_nil in Hfilled.
    eexists. split.
    + cbn [run step]. rewrite Hadding. unfold addNewRow. rewrite Hfilled.
      cbn [length Nat.ltb Nat.leb run step addMenuItem fetch requests].
      by rewrite list_lookup_middle.
    + cbn. split; [done|]. split; [done|]. split; [done|].
      by rewrite delete_middle, app_nil_r.
Qed.

End GridWithRoutes.

(** ** More on the chat form *)
Section ChatOutcomes.
Import Js Stream Chat.

Implicit Types (s : State) (content : jsstring) (o : ChatOutcome)
  (currentLanguage : Locale).

(** A text that is empty or all white space is not sent: no message is
    added and the form stays as it is. *)
Theorem blank_message_not_sent content s :
  forallb isWhiteSpace content = true →
  sendMessage content s = (s, None).
Proof.
  intros Hblank. unfold sendMessage. by rewrite truthy_trim, Hblank.
Qed.

Lemma updateAt_length (i : nat) (f : StreamingMessage → StreamingMessage)
    (l : list StreamingMessage) :
  length (updateAt i f l) = length l.
Proof. unfold updateAt. destruct (l !! i); [apply length_insert | done]. Qed.

Lemma updateAt_lookup (i : nat) (f : StreamingMessage → StreamingMessage)
    (l : list StreamingMessage) (m : StreamingMessage) :
  l !! i = Some m → updateAt i f l !! i = Some (f m).
Proof.
  intros Hm. unfold updateAt. rewrite Hm.
  apply list_lookup_insert_eq. by eapply lookup_lt_Some.
Qed.

Lemma updateAt_lookup_ne (i j : nat) (f : StreamingMessage → StreamingMessage)
    (l : list StreamingMessage) :
  i ≠ j → updateAt i f l !! j = l !! j.
Proof.
  intros Hne. unfold updateAt.
  destruct (l !! i); [by apply list_lookup_insert_ne | done].
Qed.

(** The loop over the prefixes, on a message that has content [shown]:
    afterwards the message has the last prefix as content, or [shown] when
    there was none. *)
Lemma reveal_loop (i : nat) (prefixes : list jsstring) s s' (r : Role)
    (shown : jsstring) (flag : option bool) :
  messages s !! i = Some (mkMessage r shown (Some true) flag) →
  s' = foldl (λ st partialText,
    setMessages (updateAt i (λ m,
      mkMessage (role m) partialText (Some true) (Some false))) st)
    s prefixes →
  (∃ flag', messages s' !! i
     = Some (mkMessage r (default shown (last prefixes)) (Some true) flag')
     ∧ (flag' = flag ∨ flag' = Some false))
  ∧ (∀ j, j ≠ i → messages s' !! j = messages s !! j)
  ∧ length (messages s') = length (messages s)
  ∧ streamCalls s' = streamCalls s
  ∧ isLoading s' = isLoading s.
Proof.
  revert s s' shown flag.
  induction prefixes as [|partialText prefixes IH];
    intros s s' shown flag Hm ->.
  - cbn. split; [exists flag; by split; [|left] | done].
  - cbn [foldl].
    set (s1 := setMessages _ s).
    assert (Hm1 : messages s1 !! i
                  = Some (mkMessage r partialText (Some true) (Some false))).
    { unfold s1. cbn. by rewrite (updateAt_lookup _ _ _ _ Hm). }
    destruct (IH s1 _ partialText (Some false) Hm1 eq_refl)
      as ((flag' & Hlast & Hflag) & Hother & Hlen & Hcalls & Hloading).
    assert (E : default partialText (last prefixes)
                = default shown (last (partialText :: prefixes))).
    { destruct prefixes as [|x xs]; [done|]. rewrite last_cons_cons.
      destruct (last (x :: xs)) eqn:El; [done|]. by apply last_None in El. }
    split; [|split; [|split; [|split]]].
    + exists flag'. split; [by rewrite Hlast, E|]. right. by destruct Hflag.
    + intros j Hj. rewrite Hother by done. unfold s1. cbn.
      by apply updateAt_lookup_ne.
    + rewrite Hlen. unfold s1. cbn. apply updateAt_length.
    + by rewrite Hcalls.
    + by rewrite Hloading.
Qed.

(** The last prefix of a text is the text. *)
Lemma streamTextByChar_last (text : jsstring) (delay : N) :
  default [] (last (streamTextByChar text delay)) = text.
Proof.
  destruct text as [|c rest]; [done|].
  rewrite last_lookup.
  assert (Hl : length (streamTextByChar (c :: rest) delay)
               = length (chars (c :: rest))) by apply reveal_from_length.
  assert (Hlen : (0 < length (chars (c :: rest)))%nat).
  { destruct (chars (c :: rest)) eqn:E; [|cbn; lia].
    by apply chars_nil_inv in E. }
  rewrite Hl.
  destruct (streamTextByChar (c :: rest) delay
              !! pred (length (chars (c :: rest)))) as [partialText|] eqn:E.
  - apply streamTextByChar_lookup in E as [_ ->]. cbn [default].
    replace (S (pred (length (chars (c :: rest)))))
      with (length (chars (c :: rest))) by lia.
    by rewrite firstn_all, chars_concat.
  - apply lookup_ge_None in E. lia.
Qed.

(** When the request of a sent message is answered ok, streamTextByChar is
    called once, on the text of the answer with a delay of 15, and when
    the loop over its prefixes is through the placeholder of the assistant
    holds the whole text, with the loading-dots and streaming flags false;
    the form has stopped loading. *)
Theorem answered_message_shows_whole_text currentLanguage content
    (response : jsstring) s s1 (assistantMessageIndex : nat) :
  sendMessage content s = (s1, Some assistantMessageIndex) →
  let s2 := sendMessage_resume currentLanguage assistantMessageIndex
              (ResponseOk response) s1 in
  messages s2 !! assistantMessageIndex
    = Some (mkMessage assistant response (Some false) (Some false))
  ∧ streamCalls s2 = streamCalls s ++ [(response, 15)]
  ∧ length (messages s2) = length (messages s1)
  ∧ isLoading s2 = false.
Proof.
  intros Hsend s2.
  pose proof Hsend as Hsend'.
  apply sendMessage_placeholder in Hsend' as (Hindex & Hmessages & Hcalls).
  assert (Hat : messages s1 !! assistantMessageIndex
                = Some (mkMessage assistant [] None (Some true))).
  { rewrite Hmessages, Hindex. rewrite lookup_app_r by lia.
    by replace (S (length (messages s)) - length (messages s))%nat with 1%nat
      by lia. }
  set (s1a := called_streamTextByChar response 15
    (setMessages (updateAt assistantMessageIndex (λ m,
       mkMessage (role m) [] (Some true) (Some false))) s1)).
  assert (Hat1 : messages s1a !! assistantMessageIndex
                 = Some (mkMessage assistant [] (Some true) (Some false))).
  { unfold s1a. cbn. by rewrite (updateAt_lookup _ _ _ _ Hat). }
  destruct (reveal_loop assistantMessageIndex (streamTextByChar response 15)
              s1a _ assistant [] (Some false) Hat1 eq_refl)
    as ((flag' & Hlast & Hflag) & _ & Hlen & Hcalls' & _).
  assert (flag' = Some false) as -> by (by destruct Hflag).
  rewrite streamTextByChar_last in Hlast.
  unfold s2, sendMessage_resume. fold s1a. cbn.
  rewrite (updateAt_lookup _ _ _ _ Hlast). cbn.
  split; [done|]. split; [by rewrite Hcalls', <- Hcalls|].
  split; [|done].
  rewrite updateAt_length, Hlen. unfold s1a. cbn. apply updateAt_length.
Qed.

(** However the request ends, the messages at the other positions of the
    log, the user's own among them, are left as they are. *)
Theorem answer_touches_one_message currentLanguage o s
    (assistantMessageIndex j : nat) :
  (assistantMessageIndex < length (messages s))%nat →
  j ≠ assistantMessageIndex →
  messages (sendMessage_resume currentLanguage assistantMessageIndex o s) !! j
  = messages s !! j.
Proof.
  intros Hi Hj.
  destruct (lookup_lt_is_Some_2 _ _ Hi) as [m Hm].
  unfold sendMessage_resume.
  destruct o as [| status body | | response]; cbn;
    try (rewrite Hm; by apply list_lookup_insert_ne).
  rewrite updateAt_lookup_ne by done.
  set (s1 := called_streamTextByChar response 15 _).
  assert (Hm1 : messages s1 !! assistantMessageIndex
                = Some (mkMessage (role m) [] (Some true) (Some false))).
  { unfold s1. cbn. by rewrite (updateAt_lookup _ _ _ _ Hm). }
  destruct (reveal_loop assistantMessageIndex (streamTextByChar response 15)
              s1 _ (role m) [] (Some false) Hm1 eq_refl) as (_ & Hother & _).
  rewrite Hother by done. unfold s1. cbn. by apply updateAt_lookup_ne.
Qed.

(** The [catch] branch when the log has no message at the index: the
    error text is added at the end, as a message with neither flag, and the
    messages that are there are left as they are. *)
Lemma failure_with_stale_index_appends currentLanguage s (i : nat) :
  (length (messages s) ≤ i)%nat →
  messages (sendMessage_catch currentLanguage i s)
  = messages s ++ [mkMessage assistant (errorText currentLanguage) None None].
Proof.
  intros Hi. unfold sendMessage_catch. cbn.
  by rewrite (lookup_ge_None_2 _ _ Hi).
Qed.

End ChatOutcomes.

(** ** Bold markers and line breaks *)
Section MarkdownFacts.
Import Js Markdown.

Implicit Types (s t x rest part : jsstring) (c d : N).

Lemma star_not_in_cons c x : asterisk ∉ c :: x → c ≠ asterisk ∧ asterisk ∉ x.
Proof. intros [H1 H2]%not_elem_of_cons. split; [by intros ->|done]. Qed.

Lemma bold_cons_plain c t : c ≠ asterisk → bold (c :: t) = c :: bold t.
Proof.
  intros Hc. destruct t as [|d t']; [done|]. cbn [bold].
  by rewrite (proj2 (N.eqb_neq c asterisk) Hc).
Qed.

Lemma bold_star_plain d t :
  d ≠ asterisk → bold (asterisk :: d :: t) = asterisk :: bold (d :: t).
Proof.
  intros Hd.
  change (bold (asterisk :: d :: t))
    with (if (asterisk =? asterisk) && (d =? asterisk) && closes t
          then lit "<strong>" ++ bold_inside t
          else asterisk :: bold (d :: t)).
  rewrite (proj2 (N.eqb_neq d asterisk) Hd). by rewrite andb_false_r.
Qed.

Lemma bold_open t :
  bold (asterisk :: asterisk :: t)
  = if closes t then lit "<strong>" ++ bold_inside t
    else asterisk :: bold (asterisk :: t).
Proof. done. Qed.

Lemma bold_inside_cons_plain c t :
  c ≠ asterisk → t ≠ [] → bold_inside (c :: t) = c :: bold_inside t.
Proof.
  intros Hc Ht. destruct t as [|d t']; [done|]. cbn [bold_inside].
  by rewrite (proj2 (N.eqb_neq c asterisk) Hc).
Qed.

Lemma bold_plain s : asterisk ∉ s → bold s = s.
Proof.
  induction s as [|c s IH]; [done|]. intros Hs.
  apply star_not_in_cons in Hs as [Hc Hs].
  rewrite bold_cons_plain by done. by rewrite IH.
Qed.

Lemma breaks_plain s : 0x0A ∉ s → breaks s = s.
Proof.
  unfold breaks. induction s as [|c s IH]; [done|]. intros Hs.
  apply not_elem_of_cons in Hs as [Hc Hs].
  cbn [mbind list_bind]. rewrite (proj2 (N.eqb_neq c 0x0A)) by done.
  cbn. f_equal. by apply IH.
Qed.

Lemma breaks_app s t : breaks (s ++ t) = breaks s ++ breaks t.
Proof. unfold breaks. apply bind_app. Qed.

(** A text without an asterisk and without a line feed is shown as it is:
    nothing in it is escaped, so markup in an answer reaches the page as
    markup. *)
Theorem formatMessage_keeps_plain_text s :
  asterisk ∉ s → 0x0A ∉ s → formatMessage s = s.
Proof.
  intros Hstar Hlf. unfold formatMessage.
  by rewrite bold_plain, breaks_plain.
Qed.


Lemma closes_marked x rest :
  asterisk ∉ x →
  Forall (λ c, isLineTerminator c = false) x →
  closes (x ++ asterisk :: asterisk :: rest) = true.
Proof.
  induction x as [|c x IH]; intros Hstar Hline.
  - done.
  - apply star_not_in_cons in Hstar as [Hc Hstar].
    apply Forall_cons in Hline as [Hl Hline].
    destruct (x ++ asterisk :: asterisk :: rest) as [|d t] eqn:E.
    + by destruct x.
    + cbn [app closes]. rewrite E.
      rewrite (proj2 (N.eqb_neq c asterisk) Hc), Hl. cbn [andb].
      by apply IH.
Qed.

Lemma bold_inside_marked x rest :
  asterisk ∉ x →
  bold_inside (x ++ asterisk :: asterisk :: rest)
  = x ++ lit "</strong>" ++ bold rest.
Proof.
  induction x as [|c x IH]; intros Hstar.
  - cbn [app bold_inside]. by rewrite N.eqb_refl.
  - apply star_not_in_cons in Hstar as [Hc Hstar].
    cbn [app]. rewrite bold_inside_cons_plain; [|done|by destruct x].
    by rewrite IH.
Qed.

(** A stretch of text between two pairs of asterisks, with no asterisk and
    no end of line in it, comes out between [<strong>] and [</strong>],
    the asterisks gone, and the text after it is formatted on its own. *)
Theorem formatMessage_marks_bold x rest :
  asterisk ∉ x →
  Forall (λ c, isLineTerminator c = false) x →
  formatMessage (lit "**" ++ x ++ lit "**" ++ rest)
  = lit "<strong>" ++ x ++ lit "</strong>" ++ formatMessage rest.
Proof.
  intros Hstar Hline. unfold formatMessage.
  change (lit "**" ++ x ++ lit "**" ++ rest)
    with (asterisk :: asterisk :: x ++ asterisk :: asterisk :: rest).
  rewrite bold_open, closes_marked, bold_inside_marked by done.
  rewrite !breaks_app.
  assert (Hopen : breaks (lit "<strong>") = lit "<strong>") by done.
  assert (Hclose : breaks (lit "</strong>") = lit "</strong>") by done.
  assert (Hx : breaks x = x).
  { apply breaks_plain. intros Hin.
    rewrite Forall_forall in Hline. specialize (Hline _ Hin). done. }
  by rewrite Hopen, Hclose, Hx.
Qed.

Lemma closes_line_end x c rest :
  asterisk ∉ x → isLineTerminator c = true →
  closes (x ++ c :: rest) = false.
Proof.
  intros Hstar Hc.
  assert (Hcstar : (c =? asterisk) = false).
  { destruct (c =? asterisk) eqn:E; [|done].
    apply N.eqb_eq in E as ->. discriminate Hc. }
  induction x as [|c' x IH].
  - cbn [app closes]. destruct rest; [done|]. by rewrite Hcstar, Hc.
  - apply star_not_in_cons in Hstar as [Hc' Hstar].
    cbn [app closes]. destruct (x ++ c :: rest) as [|d t] eqn:E; [done|].
    rewrite (proj2 (N.eqb_neq c' asterisk) Hc'). cbn [andb].
    destruct (isLineTerminator c'); [done|]. by apply IH.
Qed.

Lemma bold_line_end x c rest :
  asterisk ∉ x →
  isLineTerminator c = true →
  bold (asterisk :: asterisk :: x ++ c :: rest)
  = asterisk :: asterisk :: x ++ c :: bold rest.
Proof.
  intros Hstar Hc.
  assert (Hcstar : c ≠ asterisk) by (intros ->; discriminate Hc).
  rewrite bold_open, closes_line_end by done.
  f_equal.
  assert (Hrest : bold (x ++ c :: rest) = x ++ c :: bold rest).
  { clear -Hstar Hcstar. induction x as [|c' x IH].
    - cbn [app]. by rewrite bold_cons_plain.
    - apply star_not_in_cons in Hstar as [Hc' Hstar].
      cbn [app]. rewrite bold_cons_plain by done. by rewrite IH. }
  destruct x as [|c' x'].
  - cbn [app] in *. rewrite bold_star_plain by done. by rewrite Hrest.
  - apply star_not_in_cons in Hstar as [Hc' Hstar].
    cbn [app] in *. rewrite bold_star_plain by done. by rewrite Hrest.
Qed.

(** A pair of asterisks that is followed by the end of a line before any
    other asterisk opens nothing: it stays in the text as typed. *)
Theorem bold_does_not_cross_lines x c rest :
  asterisk ∉ x →
  isLineTerminator c = true →
  bold (lit "**" ++ x ++ c :: rest) = lit "**" ++ x ++ c :: bold rest
  ∧ formatMessage (lit "**" ++ x ++ c :: rest)
    = lit "**" ++ breaks (x ++ [c]) ++ formatMessage rest.
Proof.
  intros Hstar Hc.
  pose proof (bold_line_end x c rest Hstar Hc) as Hbold.
  split; [exact Hbold|].
  unfold formatMessage.
  change (lit "**" ++ x ++ c :: rest)
    with (asterisk :: asterisk :: x ++ c :: rest).
  rewrite Hbold.
  change (asterisk :: asterisk :: x ++ c :: bold rest)
    with ([asterisk; asterisk] ++ x ++ [c] ++ bold rest).
  by rewrite !breaks_app, <- app_assoc.
Qed.

Lemma bold_closing_only y : asterisk ∉ y →
  bold (y ++ [asterisk; asterisk]) = y ++ [asterisk; asterisk].
Proof.
  induction y as [|c y IH]; [done|]. intros Hy.
  apply star_not_in_cons in Hy as [Hc Hy].
  cbn [app]. rewrite bold_cons_plain by done. by rewrite IH.
Qed.

Lemma split_cons_plain part c t :
  c ≠ asterisk → split part (c :: t) = split (part ++ [c]) t.
Proof.
  intros Hc. destruct t as [|d t']; [done|]. cbn [split].
  by rewrite (proj2 (N.eqb_neq c asterisk) Hc).
Qed.

Lemma split_star_plain part d t :
  d ≠ asterisk →
  split part (asterisk :: d :: t) = split (part ++ [asterisk]) (d :: t).
Proof.
  intros Hd.
  change (split part (asterisk :: d :: t))
    with (if (asterisk =? asterisk) && (d =? asterisk) && closes t
          then part :: split_inside [asterisk; asterisk] t
          else split (part ++ [asterisk]) (d :: t)).
  rewrite (proj2 (N.eqb_neq d asterisk) Hd). by rewrite andb_false_r.
Qed.

Lemma split_open part t :
  split part (asterisk :: asterisk :: t)
  = if closes t then part :: split_inside [asterisk; asterisk] t
    else split (part ++ [asterisk]) (asterisk :: t).
Proof. done. Qed.

Lemma split_plain part x t :
  asterisk ∉ x → split part (x ++ t) = split (part ++ x) t.
Proof.
  revert part. induction x as [|c x IH]; intros part Hstar.
  - by rewrite app_nil_r.
  - apply star_not_in_cons in Hstar as [Hc Hstar].
    cbn [app]. rewrite split_cons_plain, IH by done.
    by rewrite <- app_assoc.
Qed.

Lemma split_inside_cons_plain part c t :
  c ≠ asterisk → t ≠ [] →
  split_inside part (c :: t) = split_inside (part ++ [c]) t.
Proof.
  intros Hc Ht. destruct t as [|d t']; [done|]. cbn [split_inside].
  by rewrite (proj2 (N.eqb_neq c asterisk) Hc).
Qed.

Lemma split_inside_marked part x rest :
  asterisk ∉ x →
  split_inside part (x ++ asterisk :: asterisk :: rest)
  = (part ++ x ++ [asterisk; asterisk]) :: split [] rest.
Proof.
  revert part. induction x as [|c x IH]; intros part Hstar.
  - cbn [app split_inside]. by rewrite N.eqb_refl.
  - apply star_not_in_cons in Hstar as [Hc Hstar].
    cbn [app]. rewrite split_inside_cons_plain; [|done|by destruct x].
    rewrite IH by done. by rewrite <- app_assoc.
Qed.

Lemma toNode_plain x : asterisk ∉ x → toNode x = Text x.
Proof.
  intros Hstar. unfold toNode, startsWith.
  rewrite bool_decide_eq_false_2; [done|].
  intros E. apply Hstar. destruct x as [|c x]; [done|].
  injection E as -> _. apply list_elem_of_here.
Qed.

Lemma toNode_marked x :
  toNode (lit "**" ++ x ++ lit "**") = Strong x.
Proof.
  change (lit "**") with [asterisk; asterisk].
  set (s := [asterisk; asterisk] ++ x ++ [asterisk; asterisk]).
  assert (Hlen : length s = (length ([asterisk; asterisk] ++ x) + 2)%nat).
  { unfold s. rewrite app_assoc, length_app. done. }
  assert (Hstart : startsWith s [asterisk; asterisk] = true).
  { by apply bool_decide_eq_true. }
  assert (Hend : endsWith s [asterisk; asterisk] = true).
  { unfold endsWith. apply andb_true_iff. split.
    - apply bool_decide_eq_true. cbn [length]. rewrite Hlen.
      replace (length ([asterisk; asterisk] ++ x) + 2 - 2)%nat
        with (length ([asterisk; asterisk] ++ x)) by lia.
      unfold s. rewrite app_assoc. apply drop_app_length.
    - apply bool_decide_eq_true. rewrite Hlen. cbn. lia. }
  assert (Hslice : slice_2_2 s = x).
  { unfold slice_2_2. rewrite Hlen. cbn [length app].
    replace (S (S (length x)) + 2 - 2 - 2)%nat with (length x) by lia.
    unfold s. cbn [app drop]. apply take_app_length. }
  unfold toNode. change (lit "**") with [asterisk; asterisk].
  by rewrite Hstart, Hend, Hslice.
Qed.

(** The dashboard's parser on a text that starts with a stretch without
    asterisks, followed by a stretch between two pairs of asterisks that has
    no asterisk and no end of line in it: the first comes out as text, the
    second as a [<strong>] element without its asterisks, and what follows
    is parsed on its own. *)
Theorem parseMarkdownText_marks_bold pre x rest :
  asterisk ∉ pre →
  asterisk ∉ x →
  Forall (λ c, isLineTerminator c = false) x →
  parseMarkdownText (pre ++ lit "**" ++ x ++ lit "**" ++ rest)
  = Text pre :: Strong x :: parseMarkdownText rest.
Proof.
  intros Hpre Hstar Hline. unfold parseMarkdownText.
  rewrite split_plain by done. cbn [app].
  change (lit "**" ++ x ++ lit "**" ++ rest)
    with (asterisk :: asterisk :: x ++ asterisk :: asterisk :: rest).
  rewrite split_open, closes_marked, split_inside_marked by done.
  cbn [fmap list_fmap]. f_equal; [by apply toNode_plain|]. f_equal.
  apply (toNode_marked x).
Qed.

(** Where the two differ: a text that begins and ends with a pair of
    asterisks, with an end of line and no asterisk in between, is not a
    match of the pattern, and the chat form leaves its asterisks in place;
    the dashboard takes the unmatched part for a bold one all the same,
    because it begins and ends with the pair. *)
Theorem parseMarkdownText_bold_across_lines x c y :
  asterisk ∉ x →
  asterisk ∉ y →
  isLineTerminator c = true →
  parseMarkdownText (lit "**" ++ x ++ c :: y ++ lit "**")
    = [Strong (x ++ c :: y)]
  ∧ bold (lit "**" ++ x ++ c :: y ++ lit "**")
    = lit "**" ++ x ++ c :: y ++ lit "**".
Proof.
  intros Hx Hy Hc.
  assert (Hcstar : c ≠ asterisk) by (intros ->; discriminate Hc).
  split.
  - unfold parseMarkdownText.
    change (lit "**" ++ x ++ c :: y ++ lit "**")
      with (asterisk :: asterisk :: x ++ c :: y ++ [asterisk; asterisk]).
    rewrite split_open, closes_line_end by done.
    assert (Hmid : asterisk ∉ x ++ c :: y).
    { rewrite elem_of_app, elem_of_cons. intros [?|[?|?]]; done. }
    assert (Hgo : split ([] ++ [asterisk])
                    (asterisk :: x ++ c :: y ++ [asterisk; asterisk])
                  = [[asterisk; asterisk] ++ (x ++ c :: y)
                       ++ [asterisk; asterisk]]).
    { destruct x as [|c' x'].
      - cbn [app]. rewrite split_star_plain by done.
        change (c :: y ++ [asterisk; asterisk])
          with ((c :: y) ++ [asterisk; asterisk]).
        rewrite split_plain by (by rewrite elem_of_cons; intros [?|?]).
        cbn. by rewrite <- !app_assoc.
      - apply star_not_in_cons in Hx as [Hc' Hx].
        cbn [app]. rewrite split_star_plain by done.
        change (c' :: x' ++ c :: y ++ [asterisk; asterisk])
          with ((c' :: x') ++ c :: y ++ [asterisk; asterisk]).
        replace ((c' :: x') ++ c :: y ++ [asterisk; asterisk])
          with (((c' :: x') ++ c :: y) ++ [asterisk; asterisk])
          by (by rewrite <- app_assoc).
        rewrite split_plain by done.
        cbn. by rewrite <- !app_assoc. }
    rewrite Hgo. cbn [fmap list_fmap]. f_equal.
    apply (toNode_marked (x ++ c :: y)).
  - change (lit "**" ++ x ++ c :: y ++ lit "**")
      with (asterisk :: asterisk :: x ++ c :: y ++ [asterisk; asterisk]).
    by rewrite bold_line_end, bold_closing_only.
Qed.

End MarkdownFacts.

(** ** The registration form *)
Section RegisterFacts.
Import Js Register.

(** The form asks for the account exactly when the admin code is the
    expected one, the two passwords are equal and the password has six code
    units or more; it then sends the e-mail and password as typed. In every
    other case nothing is sent and the loading flag is left alone. *)
Theorem signUp_needs_all_three_checks (isEnglish : bool) (s : State) :
  let passes := bool_decide (adminCode s = lit "123456")
                && bool_decide (password s = confirmPassword s)
                && (6 <=? length (password s))%nat in
  signUps (handleSubmit isEnglish s)
    = signUps s ++ (if passes then [(email s, password s)] else [])
  ∧ isLoading (handleSubmit isEnglish s) = (if passes then true else isLoading s)
  ∧ (passes = true → error (handleSubmit isEnglish s) = [])
  ∧ (adminCode s ≠ lit "123456" →
     error (handleSubmit isEnglish s) = invalidCode isEnglish)
  ∧ (adminCode s = lit "123456" → password s ≠ confirmPassword s →
     error (handleSubmit isEnglish s) = noMatch isEnglish)
  ∧ (adminCode s = lit "123456" → password s = confirmPassword s →
     (length (password s) < 6)%nat →
     error (handleSubmit isEnglish s) = tooShort isEnglish).
Proof.
  cbv zeta. unfold handleSubmit. cbn [adminCode password confirmPassword
    setSuccess setError].
  destruct (decide (adminCode s = lit "123456")) as [Hcode|Hcode].
  - rewrite (bool_decide_eq_true_2 _ Hcode). cbn [negb andb].
    destruct (decide (password s = confirmPassword s)) as [Hsame|Hdiff].
    + rewrite (bool_decide_eq_true_2 _ Hsame). cbn [negb andb].
      destruct (length (password s) <? 6)%nat eqn:Hshort.
      * apply Nat.ltb_lt in Hshort.
        rewrite (proj2 (Nat.leb_gt _ _)) by lia. cbn.
        rewrite app_nil_r. repeat split; try done.
      * apply Nat.ltb_ge in Hshort.
        rewrite (proj2 (Nat.leb_le _ _)) by lia. cbn.
        repeat split; try done. intros _ _ H. lia.
    + rewrite (bool_decide_eq_false_2 _ Hdiff). cbn.
      rewrite app_nil_r. repeat split; try done.
  - rewrite (bool_decide_eq_false_2 _ Hcode). cbn.
    rewrite app_nil_r. repeat split; try done.
Qed.

End RegisterFacts.

(** ** The further theorems on the sample data *)
Section GridCases.
Import Js Grid Checks.

Lemma sample_draft_complete (col : Column) :
  col ∈ columns Sample.props →
  forallb isWhiteSpace (orEmpty (newRow Sample.draft_complete !! key col))
  = false.
Proof.
  intros Hcol. apply elem_of_cons in Hcol as [-> | Hcol]; [by vm_compute|].
  apply list_elem_of_singleton in Hcol as ->. by vm_compute.
Qed.

Lemma failed_commit_restores_witness :
  run Sample.props Sample.typing
    [ClickSave (lit "7d0c") (lit "description"); Answer 0 (NotOk 500)]
  = Some (toast (toast_updateFailed Sample.props) Sample.typing).
Proof.
  apply (failed_commit_restores Sample.props Sample.typing
           (lit "7d0c") (lit "description") (NotOk 500)).
  - vm_compute. reflexivity.
  - vm_compute. reflexivity.
  - intros updatedItem. discriminate.
Defined.

Lemma commit_keeps_other_rows_witness :
  findItem (lit "a41e")
    (data (saveCellValue_resume Sample.props (lit "7d0c") (lit "description")
             (Ok Sample.hours_updated) Sample.typing))
  = Some Sample.phone.
Proof.
  destruct (commit_keeps_other_rows Sample.props Sample.typing
              (lit "7d0c") (lit "description") Sample.hours_updated)
    as [_ Hother].
  - reflexivity.
  - destruct (Hother (lit "a41e")) as [Hfind _].
    + vm_compute. discriminate.
    + rewrite Hfind. vm_compute. reflexivity.
Defined.

Lemma late_answer_keeps_row_deleted_witness :
  data (saveCellValue_resume Sample.props (lit "7d0c") (lit "description")
          (Ok Sample.hours_updated) Cases.after_delete)
  = [Sample.phone].
Proof.
  destruct (late_answer_keeps_row_deleted Sample.props Cases.after_delete
              (lit "7d0c") (lit "description") (Ok Sample.hours_updated))
    as [Hdata _].
  - vm_compute. reflexivity.
  - exact Hdata.
Defined.

Lemma failed_add_keeps_draft_witness :
  run Sample.props Sample.draft_complete [ClickConfirmAdd; Answer 0 Rejected]
  = Some (toast (toast_addFailed Sample.props) Sample.draft_complete).
Proof.
  apply (failed_add_keeps_draft Sample.props Sample.draft_complete Rejected).
  - vm_compute. reflexivity.
  - apply sample_draft_complete.
  - intros newItem. discriminate.
Defined.

Lemma double_confirm_posts_twice_witness :
  ∃ s', run Sample.props Sample.draft_complete
          [ClickConfirmAdd; ClickConfirmAdd] = Some s'
        ∧ length (requests s') = 2%nat.
Proof.
  destruct (double_confirm_posts_twice Sample.props Sample.draft_complete)
    as (s' & Hrun & Hreqs).
  - vm_compute. reflexivity.
  - apply sample_draft_complete.
  - exists s'. split; [exact Hrun|]. rewrite Hreqs. reflexivity.
Defined.

Lemma cancelled_draft_leaves_no_trace_witness :
  run Sample.props (initial Sample.props Sample.rows)
    (ClickAdd :: typeDraft Cases.parking_edits ++ [ClickCancelAdd])
  = Some (initial Sample.props Sample.rows).
Proof.
  apply (cancelled_draft_leaves_no_trace Sample.props
           (initial Sample.props Sample.rows) Cases.parking_edits).
  - reflexivity.
  - reflexivity.
  - repeat constructor; vm_compute; reflexivity.
Defined.

Lemma loading_cells_are_editing_witness :
  isEditing (saveCellValue Sample.props (lit "7d0c") (lit "description")
               Sample.typing) (lit "7d0c") (lit "description") = true.
Proof.
  apply (loading_cells_are_editing Sample.props Sample.rows
           Sample.commit_answered).
  - vm_compute. reflexivity.
  - vm_compute. reflexivity.
Defined.

Lemma updates_carry_trimmed_values_witness :
  lit "11:00-22:00" ≠ [] ∧ trim (lit "11:00-22:00") = lit "11:00-22:00".
Proof.
  apply (updates_carry_trimmed_values Sample.props Sample.rows
           Sample.commit_answered
           (saveCellValue Sample.props (lit "7d0c") (lit "description")
              Sample.typing)
           (lit "7d0c") (lit "description")).
  - vm_compute. reflexivity.
  - vm_compute. apply list_elem_of_here.
Defined.

Lemma created_rows_are_complete_witness :
  forallb isWhiteSpace
    (orEmpty (newRow Sample.draft_complete !! lit "description")) = false.
Proof.
  apply (created_rows_are_complete Sample.props Sample.rows
           Cases.confirm_draft (addNewRow Sample.props Sample.draft_complete)
           (newRow Sample.draft_complete)
           (mkColumn (lit "description") (lit "Description") textarea
              (Some (lit "10:30 - 14:00 , 17:00-20:00")))).
  - vm_compute. reflexivity.
  - vm_compute. apply list_elem_of_here.
  - apply list_elem_of_further, list_elem_of_here.
Defined.

Lemma draft_is_empty_when_closed_witness :
  newRow (cancelNewRow Sample.draft_complete) = ∅.
Proof.
  apply (draft_is_empty_when_closed Sample.props Sample.rows
           [ClickAdd;
            NewRowChange (lit "details") (lit "Parking");
            NewRowChange (lit "description") (lit "Behind the shop");
            ClickCancelAdd]).
  - vm_compute. reflexivity.
  - reflexivity.
Defined.

End GridCases.

Section RouteCases.
Import Js Grid Server Routes.


Lemma PATCH_changes_one_field_witness :
  item_id <$> [Sample.hours_updated; Sample.phone] = item_id <$> Sample.rows
  ∧ Sample.phone ∈ [Sample.hours_updated; Sample.phone].
Proof.
  destruct (PATCH_changes_one_field restaurant_details Sample.now Sample.rows
              (lit "7d0c") (lit "description") (lit "11:00-22:00")
              [Sample.hours_updated; Sample.phone] Sample.hours_updated)
    as (Hids & Hother & _).
  - vm_compute. reflexivity.
  - split; [exact Hids|]. apply (Hother Sample.phone).
    + apply list_elem_of_further, list_elem_of_here.
    + vm_compute. discriminate.
Defined.

Lemma POST_refuses_missing_field_witness :
  POST restaurant_details (lit "c933") Sample.now Sample.rows
    Cases.body_no_description
  = (Sample.rows, NotOk 400).
Proof.
  apply (POST_refuses_missing_field restaurant_details (lit "c933") Sample.now
           Sample.rows Cases.body_no_description (lit "description")).
  - apply list_elem_of_further, list_elem_of_here.
  - vm_compute. reflexivity.
Defined.

Lemma POST_stores_named_fields_witness :
  let row := insertedRow restaurant_details (lit "c933") Sample.now
               Cases.body_with_id in
  item_id row = lit "c933"
  ∧ fields row !! lit "id" = None
  ∧ fields row !! lit "details" = Some (lit "Parking").
Proof.
  intros row.
  destruct (POST_stores_named_fields restaurant_details (lit "c933")
              Sample.now Sample.rows (Sample.rows ++ [row])
              Cases.body_with_id row)
    as (_ & Hid & _ & _ & Hnamed & Hdropped & _).
  - vm_compute. reflexivity.
  - split; [exact Hid|]. split.
    + apply Hdropped.
      * apply (bool_decide_unpack _). by vm_compute.
      * vm_compute. discriminate.
      * vm_compute. discriminate.
    + destruct (Hnamed (lit "details")) as [Hvalue _].
      * apply list_elem_of_here.
      * rewrite Hvalue. vm_compute. reflexivity.
Defined.


Lemma delete_confirmed_removes_row_witness :
  ∃ s', run Sample.props (initial Sample.props Sample.rows)
          [ClickDelete (lit "7d0c"); AnswerDelete 0 (Ok ())] = Some s'
    ∧ hasRow (lit "7d0c") s' = false
    ∧ toasts s' = [].
Proof.
  destruct (delete_confirmed_removes_row Sample.props
              (initial Sample.props Sample.rows) Cases.any_uuid Sample.rows
              (lit "7d0c"))
    as (s' & Hrun & Hgone & _ & _ & Htoasts & _).
  - vm_compute. reflexivity.
  - vm_compute. discriminate.
  - reflexivity.
  - exists s'. split; [exact Hrun|]. split; [exact Hgone | exact Htoasts].
Defined.

Lemma confirmed_draft_is_stored_witness :
  let row := insertedRow restaurant_details (lit "c933") Sample.now
               (newRow Sample.draft_complete) in
  POST restaurant_details (lit "c933") Sample.now Sample.rows
    (newRow Sample.draft_complete)
  = (Sample.rows ++ [row], Ok row)
  ∧ fields row !! lit "details" = Some (lit "Parking").
Proof.
  intros row.
  destruct (confirmed_draft_is_stored Sample.props Sample.draft_complete
              restaurant_details (lit "c933") Sample.now Sample.rows)
    as (Hpost & Hfields & _).
  - vm_compute. reflexivity.
  - apply sample_draft_complete.
  - intros f Hf. apply elem_of_cons in Hf as [-> | Hf]; [by vm_compute|].
    apply list_elem_of_singleton in Hf as ->. by vm_compute.
  - apply (bool_decide_unpack _). by vm_compute.
  - split; [exact Hpost|]. unfold row. rewrite Hfields.
    + vm_compute. reflexivity.
    + apply list_elem_of_here.
Defined.

End RouteCases.

Section ChatCases.
Import Js Stream Chat.

Lemma blank_message_not_sent_witness :
  sendMessage (lit "  ") idle = (idle, None).
Proof.
  apply (blank_message_not_sent (lit "  ") idle).
  vm_compute. reflexivity.
Defined.

Lemma answered_message_shows_whole_text_witness :
  let s1 := (sendMessage (lit "hours?") idle).1 in
  let s2 := sendMessage_resume en 1 (ResponseOk (lit "Open 11:30")) s1 in
  messages s2 !! 1%nat
    = Some (mkMessage assistant (lit "Open 11:30") (Some false) (Some false))
  ∧ streamCalls s2 = [(lit "Open 11:30", 15)].
Proof.
  intros s1 s2.
  destruct (answered_message_shows_whole_text en (lit "hours?")
              (lit "Open 11:30") idle s1 1)
    as (Hmessage & Hcalls & _).
  - vm_compute. reflexivity.
  - split; [exact Hmessage | exact Hcalls].
Defined.

Lemma answer_touches_one_message_witness :
  let s1 := (sendMessage (lit "hours?") idle).1 in
  messages (sendMessage_resume en 1 FetchRejected s1) !! 0%nat
  = Some (mkMessage user (lit "hours?") None None).
Proof.
  intros s1.
  rewrite (answer_touches_one_message en FetchRejected s1 1 0).
  - vm_compute. reflexivity.
  - vm_compute. lia.
  - lia.
Defined.

End ChatCases.

Section MarkdownCases.
Import Js Markdown.

Lemma formatMessage_keeps_plain_text_witness :
  formatMessage (lit "<b>hi</b>") = lit "<b>hi</b>".
Proof.
  apply (formatMessage_keeps_plain_text (lit "<b>hi</b>")).
  - apply (bool_decide_unpack _). by vm_compute.
  - apply (bool_decide_unpack _). by vm_compute.
Defined.

Lemma formatMessage_marks_bold_witness :
  formatMessage (lit "**" ++ lit "Ramen" ++ lit "**" ++ lit " 120")
  = lit "<strong>" ++ lit "Ramen" ++ lit "</strong>" ++ formatMessage (lit " 120").
Proof.
  apply (formatMessage_marks_bold (lit "Ramen") (lit " 120")).
  - apply (bool_decide_unpack _). by vm_compute.
  - apply (bool_decide_unpack _). by vm_compute.
Defined.

Lemma bold_does_not_cross_lines_witness :
  bold (lit "**" ++ lit "a" ++ 0x0A :: lit "b")
  = lit "**" ++ lit "a" ++ 0x0A :: bold (lit "b").
Proof.
  destruct (bold_does_not_cross_lines (lit "a") 0x0A (lit "b")) as [Hbold _].
  - apply (bool_decide_unpack _). by vm_compute.
  - reflexivity.
  - exact Hbold.
Defined.

Lemma parseMarkdownText_marks_bold_witness :
  parseMarkdownText
    (lit "Total: " ++ lit "**" ++ lit "12" ++ lit "**" ++ lit " items")
  = Text (lit "Total: ") :: Strong (lit "12")
      :: parseMarkdownText (lit " items").
Proof.
  apply (parseMarkdownText_marks_bold (lit "Total: ") (lit "12") (lit " items")).
  - apply (bool_decide_unpack _). by vm_compute.
  - apply (bool_decide_unpack _). by vm_compute.
  - apply (bool_decide_unpack _). by vm_compute.
Defined.

Lemma parseMarkdownText_bold_across_lines_witness :
  parseMarkdownText (lit "**" ++ lit "a" ++ 0x0A :: lit "b" ++ lit "**")
  = [Strong (lit "a" ++ 0x0A :: lit "b")].
Proof.
  destruct (parseMarkdownText_bold_across_lines (lit "a") 0x0A (lit "b"))
    as [Hparse _].
  - apply (bool_decide_unpack _). by vm_compute.
  - apply (bool_decide_unpack _). by vm_compute.
  - reflexivity.
  - exact Hparse.
Defined.

(** The two formatters on further texts: an empty bold stretch, a third
    asterisk inside the markers, and a text of asterisks only. *)
Example formatMessage_runs :
  formatMessage (lit "a**b**c" ++ 0x0A :: lit "**d")
    = lit "a<strong>b</strong>c<br />**d"
  ∧ formatMessage (lit "****") = lit "<strong></strong>"
  ∧ formatMessage (lit "***a**") = lit "<strong>*a</strong>"
  ∧ parseMarkdownText (lit "a**b**c")
    = [Text (lit "a"); Strong (lit "b"); Text (lit "c")]
  ∧ parseMarkdownText [] = [Text []].
Proof. by vm_compute. Qed.

End MarkdownCases.

Section RegisterCases.
Import Js Register.

Lemma signUp_needs_all_three_checks_witness :
  signUps (handleSubmit true Cases.form)
    = [(lit "chef@menya.tw", lit "ramen-42")].
Proof.
  destruct (signUp_needs_all_three_checks true Cases.form) as [Hcalls _].
  exact Hcalls.
Defined.

End RegisterCases.

Section EncodingCases.
Import Js Stream.

(** A text of three characters, the second a surrogate pair: it counts
    three characters, a cut between the halves of the pair is a cut the
    encoding forbids, and no element of the renderer ends there. *)
Example pair_is_not_cut :
  let text := [0x48; 0xD83C; 0xDF5C; 0x21] in
  Encoding.displayCount text = 3%nat
  ∧ Encoding.splitsPair text 2 = true
  ∧ length <$> streamTextByChar text 15 = [1; 3; 4]%nat.
Proof. by vm_compute. Qed.

End EncodingCases.
